(** * Checkpoint persistence of gpt2-mlx: [save_checkpoint] and [load_checkpoint]

    A shallow embedding of [src/checkpoint.py].  The two functions talk to
    three things: the file system below the checkpoint root, the objects the
    caller passes in (model, optimizer, data loader), and the array library.

    - The file system is modelled as the state of the path [checkpoint_dir]:
      missing, a plain file, or a directory whose entries are listed in the
      order [os.listdir] enumerates them.  A checkpoint directory is a finite
      map from file names to entries.
    - The objects are a record that is threaded through [load_checkpoint] in a
      state-and-exception monad: Python mutates them in place, and a mutation
      made before an exception is raised stays made.
    - The array library ([mlx.core], [mlx.utils]), the model's own
      serialisation and [dataloader.load_tokens] are collaborators that live
      outside [checkpoint.py]; they are the fields of the class
      [Collaborators].
    - The two [logger.info] calls have no effect on any value and are left
      out. *)

From stdpp Require Import gmap strings list fin_maps pretty.
From stdpp Require Import sorting.

Open Scope Z_scope.

(** ** Collaborators *)

(** [None] stands for a raised exception in [item] ([.item()] on an array
    that is not a scalar) and in [load_tokens] (unreadable shard file).
    [mx_array] is taken on the integers that [mx.array] accepts: for a Python
    int that does not fit 64 bits [mx.array] raises, and no statement below
    says when a save raises or that it does not.
    [load_tokens] is imported from [dataloader.py], which is not among the
    sources, and is taken as it comes.  [slot] is the place at which the file
    system enumerates a directory that has just been created, given the names
    already there: [os.listdir] promises no order. *)
Class Collaborators := {
  weights : Type;                 (* what model.save_weights serialises *)
  array : Type;                   (* mx.array *)
  opt_state : Type;               (* optimizer.state, a nested tree *)
  shard_file : Type;              (* an element of data_loader.shards *)
  token_buf : Type;               (* data_loader.tokens *)
  mx_array : Z → array;           (* mx.array(n) for a Python int n *)
  item : array → option Z;        (* int(a.item()) *)
  tree_flatten : opt_state → list (string * array);
  tree_unflatten : list (string * array) → opt_state;
  load_tokens : shard_file → option token_buf;
  slot : list string → nat
}.

(** ** Exceptions and results *)

Inductive exn :=
| FileExistsError
| FileNotFoundError
| NotADirectoryError
| IsADirectoryError
| KeyError (key : string)
| ValueError
| IndexError
| RuntimeError.

Inductive result (A : Type) :=
| Ok (a : A)
| Raise (e : exn).
Arguments Ok {A} a.
Arguments Raise {A} e.

Global Instance result_ret : MRet result := λ A a, Ok a.

Global Instance result_bind : MBind result := λ A B k r,
  match r with
  | Ok a => k a
  | Raise e => Raise e
  end.

Definition of_option {A} (e : exn) (o : option A) : result A :=
  match o with
  | Some a => Ok a
  | None => Raise e
  end.

Section Model.
Context `{Collaborators}.

(** ** Data model *)

(** A Python [dict] with string keys, in insertion order. *)
Definition dict := list (string * array).

Fixpoint dict_get (d : dict) (k : string) : option array :=
  match d with
  | [] => None
  | (k', v) :: d' => if decide (k' = k) then Some v else dict_get d' k
  end.

Definition dict_mem (d : dict) (k : string) : bool :=
  bool_decide (is_Some (dict_get d k)).

(** [d[k] = v] *)
Fixpoint dict_set (d : dict) (k : string) (v : array) : dict :=
  match d with
  | [] => [(k, v)]
  | (k', v') :: d' =>
      if decide (k' = k) then (k, v) :: d' else (k', v') :: dict_set d' k v
  end.

(** [dict(pairs)]: later pairs overwrite earlier ones with the same key. *)
Definition py_dict (pairs : list (string * array)) : dict :=
  foldl (λ d kv, dict_set d kv.1 kv.2) [] pairs.

(** What a file holds, as far as the readers of this module can tell. *)
Inductive content :=
| Safetensors (w : weights)     (* written by model.save_weights *)
| Npz (d : dict)                (* written by mx.savez *)
| Garbage.                      (* anything no reader accepts *)

Inductive entry :=
| Regular (c : content)
| Subdir.

Inductive node :=
| NFile
| NDir (files : gmap string entry).

Inductive root :=
| Missing
| RootFile
| RootDir (listing : list (string * node)).

(** Modelled from the spec: the data loader class of [dataloader.py], which
    is not among the sources.  It has a readable and settable current shard
    index and current position within the shard, a list of shard files that
    is indexed by shard index, and the token buffer of the current shard. *)
Record DataLoader := {
  current_shard : Z;
  current_position : Z;
  shards : list shard_file;
  tokens : token_buf
}.

(** The objects [load_checkpoint] receives and may mutate. *)
Record objects := {
  model : weights;
  optimizer : opt_state;
  data_loader : option DataLoader
}.

(** The dictionary [{"shard": ..., "position": ...}] the loader returns. *)
Record cursor := { shard : Z; position : Z }.

(** ** File-system primitives *)

Fixpoint lookup_name (name : string) (l : list (string * node)) : option node :=
  match l with
  | [] => None
  | (n, x) :: l' => if decide (n = name) then Some x else lookup_name name l'
  end.

Fixpoint update_name (name : string) (x : node) (l : list (string * node))
  : list (string * node) :=
  match l with
  | [] => []
  | (n, y) :: l' =>
      if decide (n = name) then (n, x) :: l' else (n, y) :: update_name name x l'
  end.

(** [os.path.exists(checkpoint_dir)] *)
Definition root_exists (fs : root) : bool :=
  match fs with
  | Missing => false
  | _ => true
  end.

(** [os.listdir(checkpoint_dir)], each name paired with what is there. *)
Definition listdir (fs : root) : result (list (string * node)) :=
  match fs with
  | Missing => Raise FileNotFoundError
  | RootFile => Raise NotADirectoryError
  | RootDir l => Ok l
  end.

(** The entry at [os.path.join(checkpoint_dir, name, file)], if any. *)
Definition file_at (fs : root) (name file : string) : option entry :=
  match fs with
  | RootDir l =>
      match lookup_name name l with
      | Some (NDir files) => files !! file
      | _ => None
      end
  | _ => None
  end.

(** [mx.load(path)] for an [.npz] path.  A directory under that name makes
    the reader raise [ValueError]; for a file it cannot parse the reader
    raises [ValueError] or [RuntimeError] depending on the bytes, and
    [RuntimeError] stands for both. *)
Definition mx_load (e : option entry) : result dict :=
  match e with
  | Some (Regular (Npz d)) => Ok d
  | Some Subdir => Raise ValueError
  | Some (Regular _) => Raise RuntimeError
  | None => Raise FileNotFoundError
  end.

(** [int(d[k].item())] *)
Definition int_item (d : dict) (k : string) : result Z :=
  a ← of_option (KeyError k) (dict_get d k);
  of_option ValueError (item a).

(** [l[i]] with Python's negative indices. *)
Definition py_index {A} (l : list A) (i : Z) : result A :=
  let n := Z.of_nat (length l) in
  if decide (0 ≤ i < n) then of_option IndexError (l !! Z.to_nat i)
  else if decide (- n ≤ i < 0) then of_option IndexError (l !! Z.to_nat (n + i))
  else Raise IndexError.

(** ** The writer: [save_checkpoint] *)

(** [os.makedirs(os.path.join(checkpoint_dir, name), exist_ok=True)]: missing
    parents are created, an existing directory is accepted, an existing plain
    file is not. *)
Definition makedirs (name : string) (fs : root) : result root :=
  match fs with
  | Missing => Ok (RootDir [(name, NDir ∅)])
  | RootFile => Raise NotADirectoryError
  | RootDir l =>
      match lookup_name name l with
      | Some (NDir _) => Ok fs
      | Some NFile => Raise FileExistsError
      | None =>
          let k := slot l.*1 in
          Ok (RootDir (take k l ++ (name, NDir ∅) :: drop k l))
      end
  end.

(** What the writer of [c] raises when a directory has the name of its file:
    [model.save_weights] raises [RuntimeError]; for [mx.savez] the operating
    system's [IsADirectoryError] is taken. *)
Definition directory_in_the_way (c : content) : exn :=
  match c with
  | Safetensors _ => RuntimeError
  | _ => IsADirectoryError
  end.

(** Creating or overwriting the file [name/file] with content [c]. *)
Definition write_file (name file : string) (c : content) (fs : root)
  : result root :=
  match fs with
  | Missing => Raise FileNotFoundError
  | RootFile => Raise NotADirectoryError
  | RootDir l =>
      match lookup_name name l with
      | Some (NDir files) =>
          match files !! file with
          | Some Subdir => Raise (directory_in_the_way c)
          | _ => Ok (RootDir (update_name name (NDir (<[file := Regular c]> files)) l))
          end
      | Some NFile => Raise NotADirectoryError
      | None => Raise FileNotFoundError
      end
  end.

(** The effects of the writer on the file system, one per statement. *)
Inductive op :=
| Makedirs (name : string)
| WriteFile (name file : string) (c : content).

Definition exec (o : op) (fs : root) : result root :=
  match o with
  | Makedirs name => makedirs name fs
  | WriteFile name file c => write_file name file c fs
  end.

(** Running effects in order; the first exception stops the run and leaves
    the file system as the earlier effects made it. *)
Fixpoint run (ops : list op) (fs : root) : root * option exn :=
  match ops with
  | [] => (fs, None)
  | o :: ops' =>
      match exec o fs with
      | Ok fs' => run ops' fs'
      | Raise e => (fs, Some e)
      end
  end.

(** ["final" if is_final else f"checkpoint_step_{step}"] *)
Definition checkpoint_name (is_final : bool) (step : Z) : string :=
  if is_final then "final" else "checkpoint_step_" +:+ pretty step.

(** The dictionary handed to [mx.savez(metadata_path, **metadata)]. *)
Definition metadata (step : Z) (data_loader : option DataLoader) : dict :=
  let metadata := [("step", mx_array step)] in
  match data_loader with
  | Some dl =>
      let metadata := dict_set metadata "data_shard" (mx_array (current_shard dl)) in
      dict_set metadata "data_position" (mx_array (current_position dl))
  | None => metadata
  end.

(** [dict(tree_flatten(optimizer.state))] *)
Definition flat_state (o : opt_state) : dict := py_dict (tree_flatten o).

(** The statements of [save_checkpoint] that touch the file system, in the
    order of the source: [os.makedirs] (line 14), [model.save_weights]
    (line 18), [mx.savez] of the optimizer state (line 24) and [mx.savez] of
    the metadata (line 35). *)
Definition save_ops (m : weights) (o : opt_state) (step : Z) (is_final : bool)
    (data_loader : option DataLoader) : list op :=
  let checkpoint_path := checkpoint_name is_final step in
  [ Makedirs checkpoint_path;
    WriteFile checkpoint_path "model_weights.safetensors" (Safetensors m);
    WriteFile checkpoint_path "optimizer_state.npz" (Npz (flat_state o));
    WriteFile checkpoint_path "metadata.npz" (Npz (metadata step data_loader)) ].

Definition save_checkpoint (m : weights) (o : opt_state) (step : Z)
    (is_final : bool) (data_loader : option DataLoader) (fs : root)
  : root * option exn :=
  run (save_ops m o step is_final data_loader) fs.

(** ** The loader: [load_checkpoint] *)

(** [list.sort(key=lambda x: x[0], reverse=True)]: descending by step and
    stable, so entries with equal steps keep their relative order. *)
Fixpoint insert_desc (x : Z * string) (l : list (Z * string))
  : list (Z * string) :=
  match l with
  | [] => [x]
  | y :: l' => if decide (x.1 < y.1) then y :: insert_desc x l' else x :: l
  end.

Definition sort_desc (l : list (Z * string)) : list (Z * string) :=
  foldr insert_desc [] l.

(** One turn of the loop over [os.listdir(checkpoint_dir)], lines 48 to 54:
    only a directory that holds a [metadata.npz] is read, and the name of a
    directory is never looked into. *)
Definition visit (it : string * node) (checkpoints : list (Z * string))
  : result (list (Z * string)) :=
  match it with
  | (checkpoint_path, NDir files) =>
      match files !! "metadata.npz" with
      | Some e =>
          metadata ← mx_load (Some e);
          step ← int_item metadata "step";
          mret (checkpoints ++ [(step, checkpoint_path)])
      | None => mret checkpoints
      end
  | (_, NFile) => mret checkpoints
  end.

Fixpoint find_checkpoints (items : list (string * node))
    (checkpoints : list (Z * string)) : result (list (Z * string)) :=
  match items with
  | [] => mret checkpoints
  | it :: items' =>
      checkpoints ← visit it checkpoints;
      find_checkpoints items' checkpoints
  end.

(** Computations that read and mutate the caller's objects and may raise. *)
Definition M (A : Type) : Type := objects → objects * result A.

#[global] Instance M_ret : MRet M := λ A a st, (st, Ok a).

#[global] Instance M_bind : MBind M := λ A B k c st,
  match c st with
  | (st', Ok a) => k a st'
  | (st', Raise e) => (st', Raise e)
  end.

Definition lift {A} (r : result A) : M A := λ st, (st, r).

(** [model.load_weights(path)]; [mx.eval(model.parameters())] forces the
    lazily loaded arrays and changes no value.  A weights file is taken to
    fit the model it is loaded into: the file comes from [save_weights] of a
    model of the same shape.  A directory under the name, like a file that
    cannot be parsed, makes the reader raise [RuntimeError]. *)
Definition load_weights (e : option entry) : M () :=
  match e with
  | Some (Regular (Safetensors w)) =>
      λ st, ({| model := w; optimizer := optimizer st;
                data_loader := data_loader st |}, Ok ())
  | Some Subdir => lift (Raise RuntimeError)
  | Some (Regular _) => lift (Raise RuntimeError)
  | None => lift (Raise FileNotFoundError)
  end.

(** [optimizer.state = optimizer_state] *)
Definition set_optimizer_state (o : opt_state) : M () :=
  λ st, ({| model := model st; optimizer := o;
            data_loader := data_loader st |}, Ok ()).

Definition update_loader (f : DataLoader → DataLoader) : M () :=
  λ st, ({| model := model st; optimizer := optimizer st;
            data_loader := f <$> data_loader st |}, Ok ()).

(** The body of [if data_loader is not None:], lines 87 to 91: the two
    attributes are set before the shard is looked up, so they stay set when
    the lookup or [load_tokens] raises. *)
Definition restore_loader (data_shard data_position : Z) : M () :=
  λ st,
    match data_loader st with
    | Some dl =>
        (_ ← update_loader (λ d, {| current_shard := data_shard;
                                     current_position := current_position d;
                                     shards := shards d; tokens := tokens d |});
         _ ← update_loader (λ d, {| current_shard := current_shard d;
                                     current_position := data_position;
                                     shards := shards d; tokens := tokens d |});
         f ← lift (py_index (shards dl) data_shard);
         t ← lift (of_option RuntimeError (load_tokens f));
         update_loader (λ d, {| current_shard := current_shard d;
                                 current_position := current_position d;
                                 shards := shards d; tokens := t |})) st
    | None => (st, Ok ())
    end.

(** Lines 79 to 94, after the metadata has been read again. *)
Definition restore_cursor (metadata : dict) : M (option cursor) :=
  if dict_mem metadata "data_shard" && dict_mem metadata "data_position"
  then data_shard ← lift (int_item metadata "data_shard");
       data_position ← lift (int_item metadata "data_position");
       _ ← restore_loader data_shard data_position;
       mret (Some {| shard := data_shard; position := data_position |})
  else mret None.

(** Lines 63 to 97: restoring from the selected directory. *)
Definition restore (fs : root) (step : Z) (checkpoint_path : string)
  : M (Z * option cursor) :=
  let model_weights := file_at fs checkpoint_path "model_weights.safetensors" in
  _ ← (if bool_decide (is_Some model_weights)
       then load_weights model_weights else mret ());
  let optimizer_state := file_at fs checkpoint_path "optimizer_state.npz" in
  _ ← (if bool_decide (is_Some optimizer_state)
       then flat_state_dict ← lift (mx_load optimizer_state);
            set_optimizer_state (tree_unflatten flat_state_dict)
       else mret ());
  metadata ← lift (mx_load (file_at fs checkpoint_path "metadata.npz"));
  data_loader_state ← restore_cursor metadata;
  mret (step + 1, data_loader_state).

(** Lines 42 to 61: discovery and selection. *)
Definition load_checkpoint (fs : root) : M (Z * option cursor) :=
  if negb (root_exists fs) then mret (0, None) else
  checkpoints ← lift (items ← listdir fs; find_checkpoints items []);
  match checkpoints with
  | [] => mret (0, None)
  | _ :: _ =>
      match sort_desc checkpoints with
      | [] => lift (Raise IndexError)
      | (step, checkpoint_path) :: _ => restore fs step checkpoint_path
      end
  end.

(** ** Vocabulary of the statements *)

(** The entry is not a directory holding a [metadata.npz]. *)
Definition no_metadata (x : node) : Prop :=
  match x with
  | NDir files => files !! "metadata.npz" = None
  | NFile => True
  end.

(** The entry is a directory whose metadata can be read and records [step]. *)
Definition readable_metadata (x : node) (step : Z) : Prop :=
  ∃ files md, x = NDir files ∧
    mx_load (files !! "metadata.npz") = Ok md ∧ int_item md "step" = Ok step.

(** The entry is a directory whose metadata is there but cannot be used:
    reading it, or reading its [step], raises [e]. *)
Definition unreadable_metadata (x : node) (e : exn) : Prop :=
  ∃ files, x = NDir files ∧ is_Some (files !! "metadata.npz") ∧
    (md ← mx_load (files !! "metadata.npz"); int_item md "step") = Raise e.

(** Every metadata file below the root can be read. *)
Definition scannable (l : list (string * node)) : Prop :=
  Forall (λ it, no_metadata it.2 ∨ ∃ step, readable_metadata it.2 step) l.

(** The loop finds candidates, and the sort puts [(step, name)] first. *)
Definition selected (l : list (string * node)) (step : Z) (name : string) : Prop :=
  ∃ cps rest, find_checkpoints l [] = Ok cps ∧ sort_desc cps = (step, name) :: rest.

(** Both cursor keys are in the metadata. *)
Definition has_cursor (md : dict) : Prop :=
  is_Some (dict_get md "data_shard") ∧ is_Some (dict_get md "data_position").

(** What the model holds after the weights step of [restore]. *)
Definition restored_model (e : option entry) (m : weights) : weights :=
  match e with
  | Some (Regular (Safetensors w)) => w
  | _ => m
  end.

(** What the optimizer holds after the optimizer step of [restore]. *)
Definition restored_optimizer (e : option entry) (o : opt_state) : opt_state :=
  match e with
  | Some (Regular (Npz d)) => tree_unflatten d
  | _ => o
  end.

(** The artifact is absent or is what its reader expects. *)
Definition weights_loadable (e : option entry) : Prop :=
  e = None ∨ ∃ w, e = Some (Regular (Safetensors w)).

Definition npz_loadable (e : option entry) : Prop :=
  e = None ∨ ∃ d, e = Some (Regular (Npz d)).

(** The cursor step of [restore] will not raise: the two values are integer
    scalars and a live loader can reload the shard they name. *)
Definition cursor_ready (md : dict) (live : option DataLoader) : Prop :=
  has_cursor md →
  ∃ sh pos, int_item md "data_shard" = Ok sh ∧ int_item md "data_position" = Ok pos ∧
    ∀ dl, live = Some dl →
      ∃ f t, py_index (shards dl) sh = Ok f ∧ load_tokens f = Some t.

(** No step of [restore] from directory [name] will raise. *)
Definition restorable (fs : root) (name : string) (live : option DataLoader) : Prop :=
  weights_loadable (file_at fs name "model_weights.safetensors") ∧
  npz_loadable (file_at fs name "optimizer_state.npz") ∧
  ∃ md, mx_load (file_at fs name "metadata.npz") = Ok md ∧ cursor_ready md live.

(** The entries of the root, none if it is not a directory. *)
Definition entries (fs : root) : list (string * node) :=
  match fs with
  | RootDir l => l
  | _ => []
  end.

(** Names are unique in the root, and every entry other than [name] holds no
    metadata or readable metadata of a step below [step]. *)
Definition older_elsewhere (fs : root) (name : string) (step : Z) : Prop :=
  NoDup (entries fs).*1 ∧
  ∀ n x, (n, x) ∈ entries fs → n ≠ name →
    no_metadata x ∨ ∃ s, readable_metadata x s ∧ s < step.

(** The cursor the writer records for a loader. *)
Definition cursor_of (dl : DataLoader) : cursor :=
  {| shard := current_shard dl; position := current_position dl |}.

(** The effect writes the file called [file]. *)
Definition writes_to (file : string) (o : op) : Prop :=
  match o with
  | WriteFile _ f _ => f = file
  | Makedirs _ => False
  end.

(** The three artifacts the writer leaves in a directory that held [files]. *)
Definition with_artifacts (m : weights) (o : opt_state) (step : Z)
    (data_loader : option DataLoader) (files : gmap string entry)
  : gmap string entry :=
  <["metadata.npz" := Regular (Npz (metadata step data_loader))]>
    (<["optimizer_state.npz" := Regular (Npz (flat_state o))]>
       (<["model_weights.safetensors" := Regular (Safetensors m)]> files)).

(** None of the three artifact names is taken by a directory. *)
Definition writable (files : gmap string entry) : Prop :=
  files !! "model_weights.safetensors" ≠ Some Subdir ∧
  files !! "optimizer_state.npz" ≠ Some Subdir ∧
  files !! "metadata.npz" ≠ Some Subdir.

(** The file system after a crash that follows the first [k] effects. *)
Definition crashed_after (k : nat) (ops : list op) (fs : root) : root :=
  (run (take k ops) fs).1.

(** The root lets a checkpoint be written under [name]: it is missing, or it
    is a directory in which [name] is free or is a directory none of whose
    artifact names is taken by a directory. *)
Definition accepts (fs : root) (name : string) : Prop :=
  match fs with
  | Missing => True
  | RootFile => False
  | RootDir l =>
      match lookup_name name l with
      | None => True
      | Some NFile => False
      | Some (NDir files) => writable files
      end
  end.

(** The names of the three artifacts. *)
Definition artifact_names : list string :=
  ["model_weights.safetensors"; "optimizer_state.npz"; "metadata.npz"].

End Model.

(** ** A concrete set of collaborators

    Arrays are integer scalars or vectors, an optimizer state is a one-level
    dictionary of arrays (which [tree_flatten] lists as it is), shard files
    are named by strings, and a new directory is enumerated last. *)
Module Demo.

Inductive demo_array :=
| DScalar (z : Z)
| DVector (l : list Z).

Definition demo_item (a : demo_array) : option Z :=
  match a with
  | DScalar z => Some z
  | DVector [z] => Some z
  | DVector _ => None
  end.

Definition demo_load_tokens (f : string) : option (list Z) :=
  if decide (f = "shard0.bin") then Some [11; 12; 13]
  else if decide (f = "shard1.bin") then Some [21; 22]
  else None.

#[export] Instance demo : Collaborators := {|
  weights := list Z;
  array := demo_array;
  opt_state := list (string * demo_array);
  shard_file := string;
  token_buf := list Z;
  mx_array := DScalar;
  item := demo_item;
  tree_flatten := id;
  tree_unflatten := id;
  load_tokens := demo_load_tokens;
  slot := length
|}.

Definition adam : opt_state := [("step", DScalar 7); ("m", DVector [1; 2])].
Definition sgd : opt_state := [("step", DScalar 3)].

Definition loader : DataLoader :=
  {| current_shard := 1; current_position := 40;
     shards := ["shard0.bin"; "shard1.bin"]; tokens := [21; 22] |}.

Definition fresh_loader : DataLoader :=
  {| current_shard := 0; current_position := 0;
     shards := ["shard0.bin"; "shard1.bin"]; tokens := [11; 12; 13] |}.

Definition blank : objects :=
  {| model := []; optimizer := []; data_loader := None |}.

Definition blank_live : objects :=
  {| model := []; optimizer := []; data_loader := Some fresh_loader |}.

(** A complete checkpoint directory recording [step]. *)
Definition full (w : weights) (o : opt_state) (step : Z) : node :=
  NDir (<["metadata.npz" := Regular (Npz [("step", DScalar step)])]>
        (<["optimizer_state.npz" := Regular (Npz o)]>
         {["model_weights.safetensors" := Regular (Safetensors w)]})).

(** A directory whose metadata file cannot be parsed. *)
Definition torn : node := NDir {["metadata.npz" := Regular Garbage]}.

(** Metadata and weights, but no optimizer state. *)
Definition no_optimizer (w : weights) (step : Z) : node :=
  NDir (<["metadata.npz" := Regular (Npz [("step", DScalar step)])]>
        {["model_weights.safetensors" := Regular (Safetensors w)]}).

(** Metadata with a cursor, and nothing else. *)
Definition cursor_only (step sh pos : Z) : node :=
  NDir {["metadata.npz" :=
           Regular (Npz [("step", DScalar step); ("data_shard", DScalar sh);
                         ("data_position", DScalar pos)])]}.

(** Steps 3, 7 and 5, the latest under the name [final]. *)
Definition steps_3_7_5 : list (string * node) :=
  [("checkpoint_step_3", full [3] sgd 3); ("final", full [7] adam 7);
   ("checkpoint_step_5", full [5] sgd 5)].

(** Two directories record step 7; the numbered one is enumerated first. *)
Definition tied : list (string * node) :=
  [("checkpoint_step_5", full [5] sgd 5); ("checkpoint_step_7", full [1] sgd 7);
   ("final", full [2] adam 7)].

(** A root that already holds the checkpoint of step 10. *)
Definition later_root : root := RootDir [("checkpoint_step_10", full [9] adam 10)].

(** A root that holds the checkpoint of step 3. *)
Definition earlier_root : root := RootDir [("checkpoint_step_3", full [3] sgd 3)].

(** A good checkpoint next to a torn one. *)
Definition good_and_torn : list (string * node) :=
  [("checkpoint_step_3", full [3] sgd 3); ("checkpoint_step_4", torn)].

(** Metadata and weights, and an optimizer file that cannot be parsed. *)
Definition bad_optimizer (w : weights) (step : Z) : node :=
  NDir (<["metadata.npz" := Regular (Npz [("step", DScalar step)])]>
        (<["optimizer_state.npz" := Regular Garbage]>
         {["model_weights.safetensors" := Regular (Safetensors w)]})).

(** Metadata that holds a shard index but no step. *)
Definition stepless : node :=
  NDir {["metadata.npz" := Regular (Npz [("data_shard", DScalar 1)])]}.

(** A root in which the name of step 5 is taken by a plain file. *)
Definition taken_root : root := RootDir [("checkpoint_step_5", NFile)].

End Demo.

(** * Facts *)

Section Facts.
Context `{Collaborators}.

Local Arguments mx_load : simpl never.
Local Arguments int_item : simpl never.
Local Arguments file_at : simpl never.
Local Arguments write_file : simpl never.
Local Arguments makedirs : simpl never.

(** ** The stable descending sort *)

Lemma insert_desc_Forall (P : Z * string → Prop) x l :
  P x → Forall P l → Forall P (insert_desc x l).
Proof.
  intros Hx Hl. induction Hl as [|y l Hy Hl IH]; simpl.
  - by constructor.
  - case_decide; repeat constructor; done.
Qed.

Lemma sort_desc_Forall (P : Z * string → Prop) l :
  Forall P l → Forall P (sort_desc l).
Proof.
  induction 1 as [|x l Hx Hl IH]; simpl; [constructor|].
  by apply insert_desc_Forall.
Qed.

Lemma insert_desc_perm x l : insert_desc x l ≡ₚ x :: l.
Proof.
  induction l as [|y l IH]; simpl; [done|].
  case_decide; [|done]. rewrite IH. apply Permutation_swap.
Qed.

Lemma sort_desc_perm l : sort_desc l ≡ₚ l.
Proof.
  induction l as [|x l IH]; simpl; [done|].
  by rewrite insert_desc_perm, IH.
Qed.

Lemma sort_desc_nil l : sort_desc l = [] → l = [].
Proof.
  intros E. apply Permutation_nil_r. rewrite <- E. symmetry. apply sort_desc_perm.
Qed.

(** Entries of one step keep their order: the sort is stable. *)
Lemma insert_desc_filter k x l :
  filter (λ c, c.1 = k) (insert_desc x l) = filter (λ c, c.1 = k) (x :: l).
Proof.
  induction l as [|y l IH]; simpl; [done|].
  case_decide as Hlt; [|done].
  rewrite !filter_cons in *. simpl in *.
  destruct (decide (y.1 = k)), (decide (x.1 = k)); simplify_eq; try lia;
    by rewrite IH.
Qed.

Lemma sort_desc_stable k l :
  filter (λ c, c.1 = k) (sort_desc l) = filter (λ c, c.1 = k) l.
Proof.
  induction l as [|x l IH]; simpl; [done|].
  rewrite insert_desc_filter, !filter_cons, IH. done.
Qed.

(** The head of the sorted list is the first entry with the largest step. *)
Lemma sort_desc_head a x b :
  Forall (λ c, c.1 < x.1) a → Forall (λ c, c.1 ≤ x.1) b →
  ∃ t, sort_desc (a ++ x :: b) = x :: t.
Proof.
  intros Ha Hb. induction Ha as [|y a Hy Ha IH]; simpl.
  - apply sort_desc_Forall in Hb.
    destruct Hb as [|z t Hz Ht]; simpl; [by eexists|].
    case_decide; [lia|by eexists].
  - destruct IH as [t ->]. simpl. case_decide; [by eexists|lia].
Qed.

Lemma first_max_split (l : list (Z * string)) :
  l ≠ [] →
  ∃ a x b, l = a ++ x :: b ∧
    Forall (λ c, c.1 < x.1) a ∧ Forall (λ c, c.1 ≤ x.1) b.
Proof.
  induction l as [|y l IH]; [done|intros _].
  destruct l as [|z l].
  { exists [], y, []. by repeat constructor. }
  destruct IH as (a & x & b & E & Ha & Hb); [done|].
  destruct (decide (y.1 < x.1)) as [Hlt|Hge].
  - exists (y :: a), x, b. rewrite E. split; [done|]. split; [by constructor|done].
  - exists [], y, (a ++ x :: b). rewrite E. split; [done|]. split; [constructor|].
    apply Forall_app. split.
    + eapply Forall_impl; [exact Ha|]. simpl. intros; lia.
    + constructor; [lia|]. eapply Forall_impl; [exact Hb|]. simpl. intros; lia.
Qed.

(** ** Directory listings *)

Lemma lookup_name_None name l : lookup_name name l = None ↔ name ∉ l.*1.
Proof.
  induction l as [|[n x] l IH]; simpl.
  - split; [intros _; apply not_elem_of_nil|done].
  - rewrite not_elem_of_cons. case_decide as E; [|by rewrite IH; intuition].
    split; [done|]. by intros [? _].
Qed.

Lemma lookup_name_app_r name a b :
  name ∉ a.*1 → lookup_name name (a ++ b) = lookup_name name b.
Proof.
  induction a as [|[n x] a IH]; simpl; [done|].
  rewrite not_elem_of_cons. intros [? ?]. case_decide; [done|auto].
Qed.

Lemma lookup_name_here name x a b :
  name ∉ a.*1 → lookup_name name (a ++ (name, x) :: b) = Some x.
Proof.
  intros Ha. rewrite lookup_name_app_r by done. simpl. by case_decide.
Qed.

Lemma lookup_name_split name l x :
  lookup_name name l = Some x →
  ∃ a b, l = a ++ (name, x) :: b ∧ name ∉ a.*1.
Proof.
  induction l as [|[n y] l IH]; simpl; [done|].
  case_decide as E.
  - intros [= ->]. subst n. exists [], l. split; [done|apply not_elem_of_nil].
  - intros (a & b & -> & Ha)%IH. exists ((n, y) :: a), b.
    split; [done|]. simpl. rewrite not_elem_of_cons. done.
Qed.

Lemma lookup_name_skip n name x a b :
  n ≠ name →
  lookup_name n (a ++ (name, x) :: b) = lookup_name n (a ++ b).
Proof.
  intros Hne. induction a as [|[n' y] a IH]; simpl.
  - case_decide; [congruence|done].
  - case_decide; [done|apply IH].
Qed.

Lemma update_name_here name x y a b :
  name ∉ a.*1 →
  update_name name x (a ++ (name, y) :: b) = a ++ (name, x) :: b.
Proof.
  induction a as [|[n z] a IH]; simpl.
  - intros _. by case_decide.
  - rewrite not_elem_of_cons. intros [? ?]. case_decide; [done|]. by rewrite IH.
Qed.

(** ** The discovery loop *)

Lemma visit_acc it acc :
  visit it acc = cs ← visit it []; mret (acc ++ cs).
Proof.
  destruct it as [name [|files]]; simpl.
  - unfold mret, result_ret. by rewrite app_nil_r.
  - destruct (files !! "metadata.npz") as [e|].
    + destruct (mx_load (Some e)) as [md|]; simpl; [|done].
      destruct (int_item md "step"); simpl; done.
    + unfold mret, result_ret. simpl. by rewrite app_nil_r.
Qed.

Lemma find_checkpoints_acc l acc :
  find_checkpoints l acc = cs ← find_checkpoints l []; mret (acc ++ cs).
Proof.
  revert acc. induction l as [|it l IH]; intros acc; simpl.
  - unfold mret, result_ret. by rewrite app_nil_r.
  - rewrite (visit_acc it acc). destruct (visit it []) as [c|e]; simpl; [|done].
    rewrite (IH (acc ++ c)), (IH c).
    destruct (find_checkpoints l []); simpl; [|done].
    unfold mret, result_ret. by rewrite app_assoc.
Qed.

Lemma find_checkpoints_cons it l :
  find_checkpoints (it :: l) [] =
  c ← visit it []; cs ← find_checkpoints l []; mret (c ++ cs).
Proof.
  simpl. destruct (visit it []) as [c|e]; simpl; [|done].
  apply find_checkpoints_acc.
Qed.

Lemma find_checkpoints_app a b :
  find_checkpoints (a ++ b) [] =
  ca ← find_checkpoints a []; cb ← find_checkpoints b []; mret (ca ++ cb).
Proof.
  induction a as [|it a IH].
  - simpl. by destruct (find_checkpoints b []).
  - rewrite <- app_comm_cons, !find_checkpoints_cons, IH.
    destruct (visit it []) as [c|]; simpl; [|done].
    destruct (find_checkpoints a []) as [ca|]; simpl; [|done].
    destruct (find_checkpoints b []) as [cb|]; simpl; [|done].
    unfold mret, result_ret. by rewrite app_assoc.
Qed.

Lemma visit_no_metadata name x acc :
  no_metadata x → visit (name, x) acc = Ok acc.
Proof. destruct x as [|files]; simpl; [done|]. by intros ->. Qed.

Lemma visit_readable name x step :
  readable_metadata x step → visit (name, x) [] = Ok [(step, name)].
Proof.
  intros (files & md & -> & Hmd & Hstep). simpl.
  destruct (files !! "metadata.npz") as [e|]; [|done].
  rewrite Hmd. simpl. rewrite Hstep. done.
Qed.

(** A visit yields nothing or the visited name with its recorded step. *)
Lemma visit_inv name x cs :
  visit (name, x) [] = Ok cs →
  (no_metadata x ∧ cs = []) ∨ (∃ step, readable_metadata x step ∧ cs = [(step, name)]).
Proof.
  destruct x as [|files]; simpl.
  - intros [= <-]. by left.
  - destruct (files !! "metadata.npz") as [e|] eqn:E.
    + destruct (mx_load (Some e)) as [md|] eqn:Hmd; simpl; [|done].
      destruct (int_item md "step") as [step|] eqn:Hstep; simpl; [|done].
      intros [= <-]. right. exists step. split; [|done].
      exists files, md. rewrite E. done.
    + intros [= <-]. by left.
Qed.

Lemma find_checkpoints_no_metadata l :
  Forall (λ it, no_metadata it.2) l → find_checkpoints l [] = Ok [].
Proof.
  induction 1 as [|[name x] l Hx Hl IH]; [done|].
  rewrite find_checkpoints_cons, visit_no_metadata, IH by done. done.
Qed.

(** The candidates are found in enumeration order. *)
Lemma find_checkpoints_sublist l cps :
  find_checkpoints l [] = Ok cps → cps.*2 `sublist_of` l.*1.
Proof.
  revert cps. induction l as [|[name x] l IH]; intros cps.
  - intros [= <-]. constructor.
  - rewrite find_checkpoints_cons.
    destruct (visit (name, x) []) as [c|] eqn:Hv; simpl; [|done].
    destruct (find_checkpoints l []) as [cs|]; simpl; [|done].
    intros [= <-]. specialize (IH cs eq_refl).
    apply visit_inv in Hv as [[_ ->]|(step & _ & ->)]; simpl.
    + by constructor.
    + by constructor.
Qed.

(** Every candidate is a directory of the listing with readable metadata. *)
Lemma find_checkpoints_elem l cps step name :
  find_checkpoints l [] = Ok cps → (step, name) ∈ cps →
  ∃ x, (name, x) ∈ l ∧ readable_metadata x step.
Proof.
  revert cps. induction l as [|[n x] l IH]; intros cps.
  - intros [= <-] Hin. by apply elem_of_nil in Hin.
  - rewrite find_checkpoints_cons.
    destruct (visit (n, x) []) as [c|] eqn:Hv; simpl; [|done].
    destruct (find_checkpoints l []) as [cs|]; simpl; [|done].
    intros [= <-] Hin. apply elem_of_app in Hin as [Hin|Hin].
    + apply visit_inv in Hv as [[_ ->]|(s & Hr & ->)].
      * by apply elem_of_nil in Hin.
      * apply list_elem_of_singleton in Hin as [= -> ->].
        exists x. split; [left|done].
    + destruct (IH cs eq_refl Hin) as (y & Hy & Hr).
      exists y. split; [by right|done].
Qed.

(** ** Selection *)

Lemma load_checkpoint_missing st : load_checkpoint Missing st = (st, Ok (0, None)).
Proof. done. Qed.

Lemma load_checkpoint_raise l e st :
  find_checkpoints l [] = Raise e → load_checkpoint (RootDir l) st = (st, Raise e).
Proof.
  intros E. unfold load_checkpoint, mbind, M_bind, lift. simpl. by rewrite E.
Qed.

Lemma load_checkpoint_empty l st :
  find_checkpoints l [] = Ok [] → load_checkpoint (RootDir l) st = (st, Ok (0, None)).
Proof.
  intros E. unfold load_checkpoint, mbind, M_bind, lift. simpl. by rewrite E.
Qed.

Lemma load_checkpoint_selected l cps step name rest st :
  find_checkpoints l [] = Ok cps → sort_desc cps = (step, name) :: rest →
  load_checkpoint (RootDir l) st = restore (RootDir l) step name st.
Proof.
  intros E Hs. unfold load_checkpoint, mbind at 1, M_bind at 1, lift. simpl.
  rewrite E. destruct cps as [|c cps]; [done|]. by rewrite Hs.
Qed.

(** ** Restoring *)

Lemma objects_eta (st : objects) :
  {| model := model st; optimizer := optimizer st; data_loader := data_loader st |} = st.
Proof. by destruct st. Qed.

Lemma dict_mem_cursor md :
  dict_mem md "data_shard" && dict_mem md "data_position" = true ↔ has_cursor md.
Proof.
  unfold dict_mem, has_cursor.
  rewrite andb_true_iff, !bool_decide_eq_true. done.
Qed.

Lemma restore_loader_none sh pos st :
  data_loader st = None → restore_loader sh pos st = (st, Ok ()).
Proof. intros E. unfold restore_loader. by rewrite E. Qed.

Lemma restore_loader_live sh pos st dl f t :
  data_loader st = Some dl →
  py_index (shards dl) sh = Ok f → load_tokens f = Some t →
  restore_loader sh pos st =
    ({| model := model st; optimizer := optimizer st;
        data_loader := Some {| current_shard := sh; current_position := pos;
                               shards := shards dl; tokens := t |} |}, Ok ()).
Proof.
  intros E Hf Ht. unfold restore_loader. rewrite E.
  unfold mbind, M_bind, update_loader, lift. simpl.
  rewrite E, Hf, Ht. done.
Qed.

(** Whatever happens to the loader, model and optimizer are not touched. *)
Lemma restore_loader_frame sh pos st :
  model (restore_loader sh pos st).1 = model st ∧
  optimizer (restore_loader sh pos st).1 = optimizer st.
Proof.
  unfold restore_loader. destruct (data_loader st) as [dl|] eqn:E; [|done].
  unfold mbind, M_bind, update_loader, lift. simpl.
  destruct (py_index (shards dl) sh) as [f|]; simpl; [|done].
  destruct (load_tokens f); simpl; done.
Qed.

(** If the loader step returns, the shard was found and its tokens loaded. *)
Lemma restore_loader_ok sh pos st st' dl :
  data_loader st = Some dl →
  restore_loader sh pos st = (st', Ok ()) →
  ∃ f t, py_index (shards dl) sh = Ok f ∧ load_tokens f = Some t ∧
    st' = {| model := model st; optimizer := optimizer st;
             data_loader := Some {| current_shard := sh; current_position := pos;
                                    shards := shards dl; tokens := t |} |}.
Proof.
  intros E. unfold restore_loader. rewrite E.
  unfold mbind, M_bind, update_loader, lift. simpl. rewrite E.
  destruct (py_index (shards dl) sh) as [f|]; simpl; [|done].
  destruct (load_tokens f) as [t|] eqn:Ht; simpl; [|done].
  intros [= <-]. by exists f, t.
Qed.

Lemma restore_cursor_absent md st :
  ¬ has_cursor md → restore_cursor md st = (st, Ok None).
Proof.
  intros Hno. unfold restore_cursor.
  destruct (dict_mem md "data_shard" && dict_mem md "data_position") eqn:E; [|done].
  by apply dict_mem_cursor in E.
Qed.

Lemma restore_cursor_present md sh pos st :
  has_cursor md →
  int_item md "data_shard" = Ok sh → int_item md "data_position" = Ok pos →
  restore_cursor md st =
    match restore_loader sh pos st with
    | (st', Ok _) => (st', Ok (Some {| shard := sh; position := pos |}))
    | (st', Raise e) => (st', Raise e)
    end.
Proof.
  intros Hc%dict_mem_cursor Hsh Hpos. unfold restore_cursor. rewrite Hc.
  unfold mbind, M_bind, lift. by rewrite Hsh, Hpos.
Qed.

(** What a returning cursor step has done. *)
Lemma restore_cursor_ok md st st' c :
  restore_cursor md st = (st', Ok c) →
  (¬ has_cursor md ∧ c = None ∧ st' = st) ∨
  (has_cursor md ∧ ∃ sh pos,
     int_item md "data_shard" = Ok sh ∧ int_item md "data_position" = Ok pos ∧
     c = Some {| shard := sh; position := pos |} ∧
     restore_loader sh pos st = (st', Ok ())).
Proof.
  unfold restore_cursor.
  destruct (dict_mem md "data_shard" && dict_mem md "data_position") eqn:E.
  - apply dict_mem_cursor in E. unfold mbind, M_bind, lift.
    destruct (int_item md "data_shard") as [sh|]; [|done].
    destruct (int_item md "data_position") as [pos|]; [|done].
    destruct (restore_loader sh pos st) as [st1 [[]|]] eqn:Hl; [|done].
    intros [= <- <-]. right. split; [done|]. by exists sh, pos.
  - intros [= <- <-]. left. split; [|done].
    intros Hc%dict_mem_cursor. congruence.
Qed.

Lemma restore_cursor_frame md st :
  model (restore_cursor md st).1 = model st ∧
  optimizer (restore_cursor md st).1 = optimizer st.
Proof.
  unfold restore_cursor.
  destruct (dict_mem md "data_shard" && dict_mem md "data_position"); [|done].
  unfold mbind, M_bind, lift.
  destruct (int_item md "data_shard") as [sh|]; [|done].
  destruct (int_item md "data_position") as [pos|]; [|done].
  pose proof (restore_loader_frame sh pos st) as Hf.
  destruct (restore_loader sh pos st) as [st1 [[]|]]; done.
Qed.

(** With loadable artifacts, [restore] is its cursor step run on the objects
    that the weights and optimizer steps leave. *)
Lemma restore_run fs step name md st :
  weights_loadable (file_at fs name "model_weights.safetensors") →
  npz_loadable (file_at fs name "optimizer_state.npz") →
  mx_load (file_at fs name "metadata.npz") = Ok md →
  restore fs step name st =
    match restore_cursor md
      {| model := restored_model (file_at fs name "model_weights.safetensors") (model st);
         optimizer := restored_optimizer (file_at fs name "optimizer_state.npz") (optimizer st);
         data_loader := data_loader st |} with
    | (st', Ok c) => (st', Ok (step + 1, c))
    | (st', Raise e) => (st', Raise e)
    end.
Proof.
  intros Hw Ho Hmd. unfold restore.
  destruct Hw as [Hw|[w Hw]], Ho as [Ho|[d Ho]]; rewrite Hw, Ho;
    unfold mbind, M_bind, load_weights, set_optimizer_state, lift, mret, M_ret;
    simpl; rewrite Hmd; simpl;
    rewrite ?objects_eta;
    match goal with |- context [restore_cursor md ?s] =>
      destruct (restore_cursor md s) as [st' [c|e]] end; done.
Qed.

(** What a returning [restore] has done. *)
Lemma restore_ok fs step name st st' n c :
  restore fs step name st = (st', Ok (n, c)) →
  n = step + 1 ∧
  ∃ md st1, mx_load (file_at fs name "metadata.npz") = Ok md ∧
    data_loader st1 = data_loader st ∧
    restore_cursor md st1 = (st', Ok c).
Proof.
  unfold restore, mbind, M_bind, lift.
  destruct (if bool_decide (is_Some (file_at fs name "model_weights.safetensors"))
            then _ else _) as [st1 [[]|]] eqn:E1; [|done].
  destruct (if bool_decide (is_Some (file_at fs name "optimizer_state.npz"))
            then _ else _) as [st2 [[]|]] eqn:E2; [|done].
  destruct (mx_load (file_at fs name "metadata.npz")) as [md|]; [|done].
  destruct (restore_cursor md st2) as [st3 [c'|]] eqn:E3; [|done].
  intros [= <- <- <-]. split; [done|]. exists md, st2. split; [done|]. split; [|done].
  transitivity (data_loader st1).
  - destruct (bool_decide _) in E2; [|by inversion E2].
    destruct (mx_load (file_at fs name "optimizer_state.npz")); [|done].
    by inversion E2.
  - destruct (bool_decide _) in E1; [|by inversion E1].
    unfold load_weights, lift in E1.
    destruct (file_at fs name "model_weights.safetensors") as [[[]|]|];
      by inversion E1.
Qed.

(** ** Writing *)

Lemma write_file_here name file c a files b :
  name ∉ a.*1 →
  write_file name file c (RootDir (a ++ (name, NDir files) :: b)) =
    match files !! file with
    | Some Subdir => Raise (directory_in_the_way c)
    | _ => Ok (RootDir (a ++ (name, NDir (<[file := Regular c]> files)) :: b))
    end.
Proof.
  intros Ha. unfold write_file. rewrite lookup_name_here by done.
  destruct (files !! file) as [[]|]; by rewrite ?update_name_here.
Qed.

(** The three writes into a directory that is there. *)
Lemma run_writes m o step is_final dl a files b :
  let name := checkpoint_name is_final step in
  name ∉ a.*1 → writable files →
  run (tail (save_ops m o step is_final dl)) (RootDir (a ++ (name, NDir files) :: b)) =
    (RootDir (a ++ (name, NDir (with_artifacts m o step dl files)) :: b), None).
Proof.
  intros name Ha (Hw & Ho & Hm). simpl. fold name.
  rewrite write_file_here by done.
  destruct (files !! "model_weights.safetensors") as [[]|] eqn:E1; try done;
    rewrite write_file_here by done;
    rewrite lookup_insert_ne by done;
    (destruct (files !! "optimizer_state.npz") as [[]|] eqn:E2; try done);
    rewrite write_file_here by done;
    rewrite !lookup_insert_ne by done;
    (destruct (files !! "metadata.npz") as [[]|] eqn:E3; try done).
Qed.

Lemma run_writes_inv m o step is_final dl a files b fs' :
  let name := checkpoint_name is_final step in
  name ∉ a.*1 →
  run (tail (save_ops m o step is_final dl)) (RootDir (a ++ (name, NDir files) :: b)) =
    (fs', None) →
  writable files.
Proof.
  intros name Ha. simpl. fold name. unfold writable.
  rewrite write_file_here by done.
  destruct (files !! "model_weights.safetensors") as [[]|] eqn:E1; try done;
    rewrite write_file_here by done;
    rewrite lookup_insert_ne by done;
    (destruct (files !! "optimizer_state.npz") as [[]|] eqn:E2; try done);
    rewrite write_file_here by done;
    rewrite !lookup_insert_ne by done;
    (destruct (files !! "metadata.npz") as [[]|] eqn:E3; try done).
Qed.

(** What [os.makedirs] leaves: the directory is there, holding what it held
    before or nothing, and every other entry is where it was. *)
Lemma makedirs_ok name fs fs1 :
  makedirs name fs = Ok fs1 →
  ∃ a files b, (name ∉ a.*1) ∧ fs1 = RootDir (a ++ (name, NDir files) :: b) ∧
    ((fs = Missing ∧ a = [] ∧ b = [] ∧ files = ∅) ∨
     (fs = RootDir (a ++ b) ∧ (name ∉ (a ++ b).*1) ∧ files = ∅) ∨
     fs = fs1).
Proof.
  destruct fs as [| |l]; unfold makedirs; [|done|].
  - intros [= <-]. exists [], ∅, []. split; [apply not_elem_of_nil|].
    split; [done|]. by left.
  - destruct (lookup_name name l) as [[|files]|] eqn:E; [done| |].
    + intros [= <-]. apply lookup_name_split in E as (a & b & -> & Ha).
      exists a, files, b. split; [done|]. split; [done|]. by right; right.
    + intros [= <-]. apply lookup_name_None in E.
      exists (take (slot l.*1) l), ∅, (drop (slot l.*1) l).
      rewrite take_drop. split; [|split; [done|right; left; done]].
      intros Hin. apply E. rewrite <- (take_drop (slot l.*1) l), fmap_app.
      apply elem_of_app. by left.
Qed.

Lemma save_checkpoint_makedirs m o step is_final dl fs :
  save_checkpoint m o step is_final dl fs =
    match makedirs (checkpoint_name is_final step) fs with
    | Ok fs1 => run (tail (save_ops m o step is_final dl)) fs1
    | Raise e => (fs, Some e)
    end.
Proof. done. Qed.

(** A successful save leaves its three artifacts in its directory and every
    other entry of the root where it was. *)
Lemma save_checkpoint_ok m o step is_final dl fs fs' :
  let name := checkpoint_name is_final step in
  save_checkpoint m o step is_final dl fs = (fs', None) →
  ∃ a files b, (name ∉ a.*1) ∧ writable files ∧
    fs' = RootDir (a ++ (name, NDir (with_artifacts m o step dl files)) :: b) ∧
    ((fs = Missing ∧ a = [] ∧ b = [] ∧ files = ∅) ∨
     (fs = RootDir (a ++ b) ∧ (name ∉ (a ++ b).*1) ∧ files = ∅) ∨
     fs = RootDir (a ++ (name, NDir files) :: b)).
Proof.
  intros name. rewrite save_checkpoint_makedirs. fold name.
  destruct (makedirs name fs) as [fs1|] eqn:E; [|done].
  apply makedirs_ok in E as (a & files & b & Ha & -> & Hfs). intros Hrun.
  pose proof (run_writes_inv _ _ _ _ _ _ _ _ _ Ha Hrun) as Hw.
  unfold name in *. rewrite run_writes in Hrun by done. injection Hrun as <-.
  exists a, files, b. split; [done|]. split; [done|]. split; [done|].
  destruct Hfs as [?|[?| ->]]; auto.
Qed.

(** Saving into a directory that is already there succeeds as soon as no
    artifact name is taken by a directory. *)
Lemma save_checkpoint_existing m o step is_final dl a files b :
  let name := checkpoint_name is_final step in
  name ∉ a.*1 → writable files →
  save_checkpoint m o step is_final dl (RootDir (a ++ (name, NDir files) :: b)) =
    (RootDir (a ++ (name, NDir (with_artifacts m o step dl files)) :: b), None).
Proof.
  intros name Ha Hw. rewrite save_checkpoint_makedirs. fold name.
  unfold makedirs. rewrite lookup_name_here by done.
  by apply run_writes.
Qed.

(** The artifacts are where the loader looks for them. *)
Lemma file_at_here name file a files b :
  name ∉ a.*1 →
  file_at (RootDir (a ++ (name, NDir files) :: b)) name file = files !! file.
Proof. intros Ha. unfold file_at. by rewrite lookup_name_here. Qed.

Lemma with_artifacts_weights m o step dl files :
  with_artifacts m o step dl files !! "model_weights.safetensors" =
    Some (Regular (Safetensors m)).
Proof.
  unfold with_artifacts. rewrite !lookup_insert_ne by done. apply lookup_insert_eq.
Qed.

Lemma with_artifacts_optimizer m o step dl files :
  with_artifacts m o step dl files !! "optimizer_state.npz" =
    Some (Regular (Npz (flat_state o))).
Proof.
  unfold with_artifacts. rewrite lookup_insert_ne by done. apply lookup_insert_eq.
Qed.

Lemma with_artifacts_metadata m o step dl files :
  with_artifacts m o step dl files !! "metadata.npz" =
    Some (Regular (Npz (metadata step dl))).
Proof. unfold with_artifacts. apply lookup_insert_eq. Qed.

Lemma with_artifacts_writable m o step dl files :
  writable (with_artifacts m o step dl files).
Proof.
  unfold writable.
  by rewrite with_artifacts_weights, with_artifacts_optimizer, with_artifacts_metadata.
Qed.

(** ** More on discovery *)

Lemma visit_unreadable name x e acc :
  unreadable_metadata x e → visit (name, x) acc = Raise e.
Proof.
  intros (files & -> & [en E] & Hr). simpl. rewrite E in *.
  destruct (mx_load (Some en)) as [md|]; simpl in *; [|congruence].
  destruct (int_item md "step"); simpl in *; congruence.
Qed.

Lemma find_checkpoints_scannable l :
  scannable l → ∃ cps, find_checkpoints l [] = Ok cps.
Proof.
  induction 1 as [|[name x] l Hx Hl [cps IH]]; [by exists []|].
  rewrite find_checkpoints_cons, IH. simpl in Hx.
  destruct Hx as [Hx|[step Hx]].
  - rewrite visit_no_metadata by done. by eexists.
  - rewrite (visit_readable _ _ step) by done. by eexists.
Qed.

Lemma find_checkpoints_complete l cps name x step :
  find_checkpoints l [] = Ok cps → (name, x) ∈ l → readable_metadata x step →
  (step, name) ∈ cps.
Proof.
  revert cps. induction l as [|[n y] l IH]; intros cps E Hin Hr.
  - by apply elem_of_nil in Hin.
  - rewrite find_checkpoints_cons in E.
    destruct (visit (n, y) []) as [c|] eqn:Hv; simpl in E; [|done].
    destruct (find_checkpoints l []) as [cs|]; simpl in E; [|done].
    injection E as <-. apply elem_of_app.
    apply elem_of_cons in Hin as [[= -> ->]|Hin].
    + left. rewrite (visit_readable _ _ step) in Hv by done.
      injection Hv as <-. left.
    + right. by apply IH.
Qed.

(** A candidate splits the listing where it splits the candidates. *)
Lemma find_checkpoints_split l before step name after :
  find_checkpoints l [] = Ok (before ++ (step, name) :: after) →
  ∃ l1 x l2, l = l1 ++ (name, x) :: l2 ∧ readable_metadata x step ∧
    find_checkpoints l1 [] = Ok before ∧ find_checkpoints l2 [] = Ok after.
Proof.
  revert before. induction l as [|[n y] l IH]; intros before E.
  - by destruct before.
  - rewrite find_checkpoints_cons in E.
    destruct (visit (n, y) []) as [c|] eqn:Hv; simpl in E; [|done].
    destruct (find_checkpoints l []) as [cs|] eqn:Hl; simpl in E; [|done].
    injection E as E. apply visit_inv in Hv as Hc.
    destruct Hc as [[Hy ->]|(s & Hy & ->)]; simpl in E.
    + subst cs. destruct (IH before eq_refl) as (l1 & x & l2 & -> & Hx & H1 & H2).
      exists ((n, y) :: l1), x, l2. split; [done|]. split; [done|].
      split; [|done]. by rewrite find_checkpoints_cons, Hv, H1.
    + destruct before as [|c before]; simpl in E.
      * injection E as -> -> ->. exists [], y, l. by repeat split.
      * injection E as <- ->.
        destruct (IH before eq_refl) as (l1 & x & l2 & -> & Hx & H1 & H2).
        exists ((n, y) :: l1), x, l2. split; [done|]. split; [done|].
        split; [|done]. by rewrite find_checkpoints_cons, Hv, H1.
Qed.

(** [restore] reads the file system only below the selected directory. *)
Lemma restore_ext fs fs' step name st :
  (∀ file, file_at fs name file = file_at fs' name file) →
  restore fs step name st = restore fs' step name st.
Proof. intros E. unfold restore. by rewrite !E. Qed.

(** An entry without metadata can be taken out of the listing. *)
Lemma load_checkpoint_skip a name x b st :
  name ∉ (a ++ b).*1 → no_metadata x →
  load_checkpoint (RootDir (a ++ (name, x) :: b)) st =
  load_checkpoint (RootDir (a ++ b)) st.
Proof.
  intros Hfresh Hx.
  assert (find_checkpoints (a ++ (name, x) :: b) [] = find_checkpoints (a ++ b) [])
    as E.
  { rewrite !find_checkpoints_app, find_checkpoints_cons.
    rewrite visit_no_metadata by done.
    destruct (find_checkpoints a []); simpl; [|done].
    by destruct (find_checkpoints b []). }
  destruct (find_checkpoints (a ++ b) []) as [cps|e] eqn:Hf.
  - destruct (sort_desc cps) as [|[step n] rest] eqn:Hs.
    + apply sort_desc_nil in Hs as ->.
      by rewrite (load_checkpoint_empty _ _ E), (load_checkpoint_empty _ _ Hf).
    + rewrite (load_checkpoint_selected _ _ _ _ _ _ E Hs).
      rewrite (load_checkpoint_selected _ _ _ _ _ _ Hf Hs).
      apply restore_ext. intros file. unfold file_at.
      rewrite lookup_name_skip; [done|]. intros ->. apply Hfresh.
      eapply elem_of_sublist; [|by apply find_checkpoints_sublist].
      apply list_elem_of_fmap. exists (step, name). split; [done|].
      rewrite <- (sort_desc_perm cps), Hs. left.
  - by rewrite (load_checkpoint_raise _ e _ E), (load_checkpoint_raise _ e _ Hf).
Qed.

(** An unreadable metadata file stops the loop, and the load with it. *)
Lemma load_checkpoint_unreadable a name x b e st :
  scannable a → unreadable_metadata x e →
  load_checkpoint (RootDir (a ++ (name, x) :: b)) st = (st, Raise e).
Proof.
  intros [cs Ha]%find_checkpoints_scannable Hx. apply load_checkpoint_raise.
  rewrite find_checkpoints_app, Ha, find_checkpoints_cons.
  by rewrite (visit_unreadable _ _ e).
Qed.

(** The selected candidate is the first one with the largest step. *)
Lemma selection l cps :
  find_checkpoints l [] = Ok cps → cps ≠ [] →
  ∃ step name before after,
    cps = before ++ (step, name) :: after ∧
    Forall (λ c, c.1 < step) before ∧ Forall (λ c, c.1 ≤ step) after ∧
    selected l step name.
Proof.
  intros E Hne.
  destruct (first_max_split cps Hne) as (a & [step name] & b & -> & Ha & Hb).
  destruct (sort_desc_head a (step, name) b Ha Hb) as [t Ht].
  exists step, name, a, b. repeat split; [done..|].
  by exists (a ++ (step, name) :: b), t.
Qed.

Lemma scannable_candidates l :
  scannable l → Exists (λ it, ∃ step, readable_metadata it.2 step) l →
  ∃ cps, find_checkpoints l [] = Ok cps ∧ cps ≠ [].
Proof.
  intros [cps E]%find_checkpoints_scannable Hex. exists cps. split; [done|].
  apply Exists_exists in Hex as ([name x] & Hin & step & Hr). simpl in Hr.
  intros ->. eapply elem_of_nil, (find_checkpoints_complete l); eauto.
Qed.

Lemma load_checkpoint_restore l step name st :
  selected l step name →
  load_checkpoint (RootDir l) st = restore (RootDir l) step name st.
Proof. intros (cps & rest & E & Hs). by eapply load_checkpoint_selected. Qed.

(** When no step of [restore] raises, it returns the next step and leaves
    the model and the optimizer as their artifacts say. *)
Lemma restore_returns fs step name st :
  restorable fs name (data_loader st) →
  ∃ st' c, restore fs step name st = (st', Ok (step + 1, c)) ∧
    model st' = restored_model (file_at fs name "model_weights.safetensors") (model st) ∧
    optimizer st' = restored_optimizer (file_at fs name "optimizer_state.npz") (optimizer st).
Proof.
  intros (Hw & Ho & md & Hmd & Hc). rewrite (restore_run _ _ _ md) by done.
  set (st1 := Build_objects _ _ _).
  destruct (dict_mem md "data_shard" && dict_mem md "data_position") eqn:E.
  - apply dict_mem_cursor in E. destruct (Hc E) as (sh & pos & Hsh & Hpos & Hlive).
    rewrite (restore_cursor_present _ sh pos) by done.
    destruct (data_loader st) as [dl|] eqn:Hdl.
    + destruct (Hlive dl eq_refl) as (f & t & Hf & Ht).
      rewrite (restore_loader_live _ _ _ dl f t) by done. by eexists _, _.
    + rewrite restore_loader_none by done. by eexists _, _.
  - rewrite restore_cursor_absent; [by eexists _, _|].
    intros Hc'%dict_mem_cursor. congruence.
Qed.

(** ** The claims about discovery *)

(** C4, amended.  When the checkpoint root does not exist, or is a directory
    none of whose entries is a directory holding a metadata file,
    [load_checkpoint] returns [(0, None)] without raising and leaves model,
    optimizer and data loader as they were. *)
Theorem empty_root_starts_from_scratch fs st :
  fs = Missing ∨ (∃ l, fs = RootDir l ∧ Forall (λ it, no_metadata it.2) l) →
  load_checkpoint fs st = (st, Ok (0, None)).
Proof.
  intros [->|(l & -> & Hl)]; [done|].
  apply load_checkpoint_empty. by apply find_checkpoints_no_metadata.
Qed.

(** C3, amended.  A subdirectory whose metadata file is absent is left out of
    the candidates, and the load goes on exactly as if that directory were
    not in the root.  A metadata file that is there but cannot be read is not
    contained: once the entries enumerated before it have been scanned, its
    exception ends the whole load. *)
Theorem missing_metadata_skipped_unreadable_raises a name x b st :
  name ∉ (a ++ b).*1 →
  (no_metadata x →
   load_checkpoint (RootDir (a ++ (name, x) :: b)) st =
   load_checkpoint (RootDir (a ++ b)) st) ∧
  (∀ e, scannable a → unreadable_metadata x e →
   load_checkpoint (RootDir (a ++ (name, x) :: b)) st = (st, Raise e)).
Proof.
  intros Hfresh. split.
  - by apply load_checkpoint_skip.
  - intros e. apply load_checkpoint_unreadable.
Qed.

(** C2.  In a root whose metadata files can all be read and which holds a
    candidate, [load_checkpoint] restores from a directory whose recorded
    step is the largest recorded below the root, whatever the directories
    are called, and the step it returns is that step plus one: it does
    return it when no step of the restore raises, and it returns no other. *)
Theorem latest_wins l st :
  scannable l → Exists (λ it, ∃ step, readable_metadata it.2 step) l →
  ∃ step name x,
    (name, x) ∈ l ∧ readable_metadata x step ∧
    (∀ name' x' step', (name', x') ∈ l → readable_metadata x' step' → step' ≤ step) ∧
    load_checkpoint (RootDir l) st = restore (RootDir l) step name st ∧
    (restorable (RootDir l) name (data_loader st) →
     ∃ st' c, load_checkpoint (RootDir l) st = (st', Ok (step + 1, c))) ∧
    (∀ st' n c, load_checkpoint (RootDir l) st = (st', Ok (n, c)) → n = step + 1).
Proof.
  intros Hscan Hex.
  destruct (scannable_candidates l Hscan Hex) as (cps & E & Hne).
  destruct (selection l cps E Hne)
    as (step & name & before & after & -> & Hb & Ha & Hsel).
  destruct (find_checkpoints_elem l _ step name E) as (x & Hin & Hr).
  { apply elem_of_app. right. left. }
  exists step, name, x. split; [done|]. split; [done|].
  rewrite (load_checkpoint_restore _ _ _ _ Hsel). split; [|split; [done|split]].
  - intros name' x' step' Hin' Hr'.
    pose proof (find_checkpoints_complete _ _ _ _ _ E Hin' Hr') as Hc.
    apply elem_of_app in Hc as [Hc|Hc].
    + rewrite Forall_forall in Hb. specialize (Hb _ Hc). simpl in Hb. lia.
    + apply elem_of_cons in Hc as [[= -> ->]|Hc]; [lia|].
      rewrite Forall_forall in Ha. apply (Ha _ Hc).
  - intros Hrest. destruct (restore_returns _ step _ _ Hrest) as (st' & c & Hgo & _).
    by exists st', c.
  - intros st' n c Hgo. by apply restore_ok in Hgo as [-> _].
Qed.

(** C10.  When several candidates record the largest step, the one restored
    from is the first of them in the enumeration order of the root: the
    candidates enumerated before it record smaller steps, those after it
    record no larger ones, and the sort moves no candidate past another of
    the same step. *)
Theorem tie_break_first_enumerated l st :
  scannable l → Exists (λ it, ∃ step, readable_metadata it.2 step) l →
  ∃ step name x l1 l2 cps,
    l = l1 ++ (name, x) :: l2 ∧ readable_metadata x step ∧
    (∀ n' x' s', (n', x') ∈ l1 → readable_metadata x' s' → s' < step) ∧
    (∀ n' x' s', (n', x') ∈ l2 → readable_metadata x' s' → s' ≤ step) ∧
    load_checkpoint (RootDir l) st = restore (RootDir l) step name st ∧
    find_checkpoints l [] = Ok cps ∧ cps.*2 `sublist_of` l.*1 ∧
    (∀ k, filter (λ c, c.1 = k) (sort_desc cps) = filter (λ c, c.1 = k) cps).
Proof.
  intros Hscan Hex.
  destruct (scannable_candidates l Hscan Hex) as (cps & E & Hne).
  destruct (selection l cps E Hne)
    as (step & name & before & after & -> & Hb & Ha & Hsel).
  destruct (find_checkpoints_split _ _ _ _ _ E) as (l1 & x & l2 & -> & Hr & E1 & E2).
  exists step, name, x, l1, l2, (before ++ (step, name) :: after).
  split; [done|]. split; [done|]. split; [|split; [|split; [|split; [done|split]]]].
  - intros n' x' s' Hin' Hr'.
    pose proof (find_checkpoints_complete _ _ _ _ _ E1 Hin' Hr') as Hc.
    rewrite Forall_forall in Hb. apply (Hb _ Hc).
  - intros n' x' s' Hin' Hr'.
    pose proof (find_checkpoints_complete _ _ _ _ _ E2 Hin' Hr') as Hc.
    rewrite Forall_forall in Ha. apply (Ha _ Hc).
  - by apply load_checkpoint_restore.
  - by apply find_checkpoints_sublist.
  - intros k. apply sort_desc_stable.
Qed.

(** ** The claims about restoring *)

Lemma int_item_is_Some md k z : int_item md k = Ok z → is_Some (dict_get md k).
Proof.
  unfold int_item. destruct (dict_get md k) as [a|]; [by eexists|done].
Qed.

(** C5.  When the selected directory has usable metadata and nothing in it
    makes a restore step raise, [load_checkpoint] returns the next step; a
    missing optimizer artifact leaves the optimizer as it was while the model
    takes the weights that are there, and a missing weights artifact leaves
    the model as it was while the optimizer takes the state that is there. *)
Theorem partial_checkpoint_tolerance l step name st :
  selected l step name →
  restorable (RootDir l) name (data_loader st) →
  ∃ st' c, load_checkpoint (RootDir l) st = (st', Ok (step + 1, c)) ∧
    (file_at (RootDir l) name "optimizer_state.npz" = None →
     optimizer st' = optimizer st) ∧
    (file_at (RootDir l) name "model_weights.safetensors" = None →
     model st' = model st) ∧
    (∀ w, file_at (RootDir l) name "model_weights.safetensors" =
            Some (Regular (Safetensors w)) → model st' = w) ∧
    (∀ d, file_at (RootDir l) name "optimizer_state.npz" =
            Some (Regular (Npz d)) → optimizer st' = tree_unflatten d).
Proof.
  intros Hsel Hrest. rewrite (load_checkpoint_restore _ _ _ _ Hsel).
  destruct (restore_returns _ step _ _ Hrest) as (st' & c & Hgo & Hm & Ho).
  exists st', c. split; [done|]. rewrite Hm, Ho.
  split; [by intros ->|]. split; [by intros ->|].
  split; [by intros w ->|by intros d ->].
Qed.

(** C7.  When a live data loader is passed in and the metadata of the
    selected directory holds both cursor values, [load_checkpoint] sets the
    loader's shard index and position to them and replaces its token buffer
    by the tokens of the shard file at that index of the loader's own shard
    list; the shard list itself is kept. *)
Theorem live_loader_restored l step name md sh pos st dl f t :
  selected l step name →
  weights_loadable (file_at (RootDir l) name "model_weights.safetensors") →
  npz_loadable (file_at (RootDir l) name "optimizer_state.npz") →
  mx_load (file_at (RootDir l) name "metadata.npz") = Ok md →
  int_item md "data_shard" = Ok sh → int_item md "data_position" = Ok pos →
  data_loader st = Some dl →
  py_index (shards dl) sh = Ok f → load_tokens f = Some t →
  ∃ st',
    load_checkpoint (RootDir l) st =
      (st', Ok (step + 1, Some {| shard := sh; position := pos |})) ∧
    data_loader st' =
      Some {| current_shard := sh; current_position := pos;
              shards := shards dl; tokens := t |}.
Proof.
  intros Hsel Hw Ho Hmd Hsh Hpos Hdl Hf Ht.
  rewrite (load_checkpoint_restore _ _ _ _ Hsel), (restore_run _ _ _ md) by done.
  rewrite (restore_cursor_present _ sh pos);
    [|by split; eapply int_item_is_Some|done..].
  rewrite (restore_loader_live _ _ _ dl f t) by done. by eexists.
Qed.

(** C6.  A returning [load_checkpoint] hands back a cursor exactly when the
    metadata of the selected directory holds both [data_shard] and
    [data_position], and every other returning load from the same root,
    with or without a live loader, hands back the same cursor.  A successful
    [save_checkpoint] writes metadata that holds [step], and holds
    [data_shard] and [data_position] exactly when a loader was passed. *)
Theorem cursor_pairing :
  (∀ l step name md st st' n c,
     selected l step name →
     mx_load (file_at (RootDir l) name "metadata.npz") = Ok md →
     load_checkpoint (RootDir l) st = (st', Ok (n, c)) →
     (is_Some c ↔ has_cursor md) ∧
     ∀ st2 st2' n2 c2,
       load_checkpoint (RootDir l) st2 = (st2', Ok (n2, c2)) → c2 = c) ∧
  (∀ m o step is_final dl fs fs',
     save_checkpoint m o step is_final dl fs = (fs', None) →
     ∃ md,
       file_at fs' (checkpoint_name is_final step) "metadata.npz" =
         Some (Regular (Npz md)) ∧
       is_Some (dict_get md "step") ∧
       (is_Some (dict_get md "data_shard") ↔ is_Some dl) ∧
       (is_Some (dict_get md "data_position") ↔ is_Some dl)).
Proof.
  split.
  - intros l step name md st st' n c Hsel Hmd Hgo.
    rewrite (load_checkpoint_restore _ _ _ _ Hsel) in Hgo.
    apply restore_ok in Hgo as (_ & md' & st1 & Hmd' & _ & Hc).
    assert (md' = md) as -> by congruence.
    assert (∀ s s' c', restore_cursor md s = (s', Ok c') →
              (is_Some c' ↔ has_cursor md) ∧
              ∀ sh pos, int_item md "data_shard" = Ok sh →
                int_item md "data_position" = Ok pos →
                c' = Some {| shard := sh; position := pos |}) as Hshape.
    { intros s s' c' [(Hno & -> & _)|(Hyes & sh & pos & Hsh & Hpos & -> & _)]%restore_cursor_ok.
      - split; [split; [by intros []|done]|].
        intros sh pos Hsh Hpos. destruct Hno.
        split; by eapply int_item_is_Some.
      - split; [split; [done|by eexists]|]. intros sh' pos' ? ?. congruence. }
    split; [by apply (Hshape _ _ _ Hc)|].
    intros st2 st2' n2 c2 Hgo2.
    rewrite (load_checkpoint_restore _ _ _ _ Hsel) in Hgo2.
    apply restore_ok in Hgo2 as (_ & md2 & s2 & Hmd2 & _ & Hc2).
    assert (md2 = md) as -> by congruence.
    apply restore_cursor_ok in Hc as [(Hno & -> & _)|(Hyes & sh & pos & Hsh & Hpos & -> & _)];
      apply restore_cursor_ok in Hc2 as [(Hno2 & -> & _)|(Hyes2 & sh2 & pos2 & Hsh2 & Hpos2 & -> & _)];
      try done.
    congruence.
  - intros m o step is_final dl fs fs' Hsave.
    apply save_checkpoint_ok in Hsave as (a & files & b & Ha & _ & -> & _).
    exists (metadata step dl).
    rewrite file_at_here, with_artifacts_metadata by done. split; [done|].
    destruct dl as [d|]; simpl; repeat split; try done; intros _; by eexists.
Qed.

(** ** The claims about writing *)

(** C9.  After a successful [save_checkpoint] for a step, a second one for
    the same step (and the same [is_final]) succeeds too: creating the
    directory again changes nothing, and afterwards the directory holds the
    weights, the optimizer state and the metadata of the second call. *)
Theorem rewrite_same_step m1 o1 dl1 m2 o2 dl2 step is_final fs fs1 :
  save_checkpoint m1 o1 step is_final dl1 fs = (fs1, None) →
  makedirs (checkpoint_name is_final step) fs1 = Ok fs1 ∧
  ∃ fs2,
    save_checkpoint m2 o2 step is_final dl2 fs1 = (fs2, None) ∧
    file_at fs2 (checkpoint_name is_final step) "model_weights.safetensors" =
      Some (Regular (Safetensors m2)) ∧
    file_at fs2 (checkpoint_name is_final step) "optimizer_state.npz" =
      Some (Regular (Npz (flat_state o2))) ∧
    file_at fs2 (checkpoint_name is_final step) "metadata.npz" =
      Some (Regular (Npz (metadata step dl2))).
Proof.
  intros (a & files & b & Ha & _ & -> & _)%save_checkpoint_ok. split.
  - unfold makedirs. by rewrite lookup_name_here.
  - eexists. split.
    + apply save_checkpoint_existing; [done|apply with_artifacts_writable].
    + rewrite !file_at_here by done.
      by rewrite with_artifacts_weights, with_artifacts_optimizer,
        with_artifacts_metadata.
Qed.

(** The file system a crash leaves when the directory was not there. *)
Lemma crash_shape m o step is_final dl fs k :
  let name := checkpoint_name is_final step in
  let ops := save_ops m o step is_final dl in
  (k < length ops)%nat →
  fs = Missing ∨ (∃ l, fs = RootDir l ∧ name ∉ l.*1) →
  crashed_after k ops fs = fs ∨
  ∃ a files b,
    crashed_after k ops fs = RootDir (a ++ (name, NDir files) :: b) ∧
    files !! "metadata.npz" = None ∧ (name ∉ (a ++ b).*1) ∧
    ((fs = Missing ∧ a = [] ∧ b = []) ∨ fs = RootDir (a ++ b)).
Proof.
  intros name ops Hk Hfresh. unfold crashed_after.
  destruct k as [|k]; [by left|right].
  assert (∃ a b, makedirs name fs = Ok (RootDir (a ++ (name, NDir ∅) :: b)) ∧
            (name ∉ (a ++ b).*1) ∧
            ((fs = Missing ∧ a = [] ∧ b = []) ∨ fs = RootDir (a ++ b)))
    as (a & b & Hmk & Hab & Hfs).
  { destruct Hfresh as [->|(l & -> & Hl)].
    - exists [], []. split; [done|]. split; [apply not_elem_of_nil|by left].
    - exists (take (slot l.*1) l), (drop (slot l.*1) l).
      rewrite take_drop. unfold makedirs.
      apply lookup_name_None in Hl as Hnone. by rewrite Hnone; auto. }
  assert (name ∉ a.*1) as Ha.
  { intros Hin. apply Hab. rewrite fmap_app. apply elem_of_app. by left. }
  exists a.
  destruct k as [|k]; simpl; fold name; rewrite Hmk.
  { exists ∅, b. by rewrite lookup_empty. }
  rewrite write_file_here, lookup_empty by done.
  destruct k as [|k]; simpl.
  { eexists _, b. split; [done|]. by rewrite lookup_insert_ne. }
  rewrite write_file_here by done. rewrite lookup_insert_ne, lookup_empty by done.
  destruct k as [|k]; simpl.
  { eexists _, b. split; [done|]. by rewrite !lookup_insert_ne. }
  simpl in Hk. lia.
Qed.

(** What an effect leaves alone. *)
Lemma file_at_makedirs name fs fs1 n file :
  makedirs name fs = Ok fs1 → file_at fs1 n file = file_at fs n file.
Proof.
  intros (a & files & b & Ha & -> & Hfs)%makedirs_ok.
  destruct Hfs as [(-> & -> & -> & ->)|[(-> & Hab & ->)| ->]]; [| |done].
  - unfold file_at. simpl. case_decide; [apply lookup_empty|done].
  - unfold file_at. destruct (decide (n = name)) as [->|Hn].
    + rewrite lookup_name_here by done. apply lookup_name_None in Hab.
      by rewrite Hab, lookup_empty.
    + by rewrite lookup_name_skip.
Qed.

Lemma file_at_write_file name file c fs fs1 n file' :
  write_file name file c fs = Ok fs1 → n ≠ name ∨ file' ≠ file →
  file_at fs1 n file' = file_at fs n file'.
Proof.
  unfold write_file. destruct fs as [| |l]; [done..|].
  destruct (lookup_name name l) as [[|files]|] eqn:E; [done| |done].
  apply lookup_name_split in E as (a & b & -> & Ha).
  rewrite update_name_here by done.
  destruct (files !! file) as [[]|]; [|done|]; intros [= <-] Hne;
    (destruct (decide (n = name)) as [->|Hn];
     [rewrite !file_at_here by done; apply lookup_insert_ne;
      intros <-; by destruct Hne
     |unfold file_at; by rewrite !lookup_name_skip]).
Qed.

(** Effects that do not write a file leave it as it was, whether the run
    completes or stops at an exception. *)
Lemma run_keeps_file ops fs n file :
  Forall (λ o, ¬ writes_to file o) ops →
  file_at (run ops fs).1 n file = file_at fs n file.
Proof.
  intros Hops. revert fs. induction Hops as [|o ops Ho Hops IH]; intros fs; [done|].
  simpl. destruct (exec o fs) as [fs1|e] eqn:E; [|done].
  rewrite IH. destruct o as [name|name file' c]; simpl in E.
  - by eapply file_at_makedirs.
  - eapply file_at_write_file; [done|]. right. intros ->. by apply Ho.
Qed.

Lemma write_file_ok name file c a files b :
  name ∉ a.*1 → files !! file ≠ Some Subdir →
  write_file name file c (RootDir (a ++ (name, NDir files) :: b)) =
    Ok (RootDir (a ++ (name, NDir (<[file := Regular c]> files)) :: b)).
Proof.
  intros Ha Hfile. rewrite write_file_here by done.
  by destruct (files !! file) as [[]|].
Qed.


(** ** Saving, then loading *)

Lemma int_item_get md k a z :
  dict_get md k = Some a → item a = Some z → int_item md k = Ok z.
Proof. intros Hk Ha. unfold int_item. rewrite Hk. simpl. by rewrite Ha. Qed.

Lemma metadata_step step dl : dict_get (metadata step dl) "step" = Some (mx_array step).
Proof. by destruct dl. Qed.

Lemma metadata_cursor step d :
  dict_get (metadata step (Some d)) "data_shard" = Some (mx_array (current_shard d)) ∧
  dict_get (metadata step (Some d)) "data_position" = Some (mx_array (current_position d)).
Proof. done. Qed.

Lemma metadata_no_cursor step : ¬ has_cursor (metadata step None).
Proof. intros [[v Hv] _]. simpl in Hv. discriminate. Qed.

Lemma find_checkpoints_older l step :
  (∀ n x, (n, x) ∈ l → no_metadata x ∨ ∃ s, readable_metadata x s ∧ s < step) →
  ∃ cs, find_checkpoints l [] = Ok cs ∧ Forall (λ c, c.1 < step) cs.
Proof.
  induction l as [|[n x] l IH]; intros Hl; [by exists []|].
  destruct IH as (cs & E & Hcs).
  { intros n' x' Hin. apply (Hl n' x'). by right. }
  rewrite find_checkpoints_cons, E.
  destruct (Hl n x) as [Hx|(s & Hx & Hs)]; [left|..].
  - rewrite visit_no_metadata by done. by exists cs.
  - rewrite (visit_readable _ _ s) by done. exists ((s, n) :: cs).
    split; [done|]. by constructor.
Qed.

(** Where a successful save leaves the other entries of the root. *)
Lemma save_checkpoint_others m o step is_final dl fs fs' :
  let name := checkpoint_name is_final step in
  save_checkpoint m o step is_final dl fs = (fs', None) →
  NoDup (entries fs).*1 →
  ∃ a files b,
    fs' = RootDir (a ++ (name, NDir (with_artifacts m o step dl files)) :: b) ∧
    (name ∉ (a ++ b).*1) ∧ ∀ it, it ∈ a ++ b → it ∈ entries fs.
Proof.
  intros name (a & files & b & Ha & _ & -> & Hfs)%save_checkpoint_ok Hnd.
  exists a, files, b. split; [done|].
  destruct Hfs as [(-> & -> & -> & _)|[(-> & Hab & _)| ->]]; simpl in *.
  - split; [apply not_elem_of_nil|done].
  - done.
  - rewrite fmap_app, fmap_cons in Hnd. simpl in Hnd.
    apply NoDup_app in Hnd as (_ & Hdisj & [Hb _]%NoDup_cons).
    split.
    + rewrite fmap_app. intros [?|?]%elem_of_app; done.
    + intros it [?|?]%elem_of_app; apply elem_of_app; [by left|by right; right].
Qed.

(** C1, amended.  When the save succeeds, names are unique in the root and
    every other entry of the root holds no metadata or the readable metadata
    of a smaller step, then [load_checkpoint] on the same root returns
    [step + 1] with the cursor that was saved (none if no loader was passed
    to the save), the model holds the saved weights and the optimizer the
    saved state; a live loader passed to the load gets the saved shard index
    and position and the tokens of that shard.  The collaborators are
    assumed to round-trip: scalars through [mx.array] and [.item()], the
    optimizer state through flattening and unflattening, and a live loader
    can reload the shard the cursor names. *)
Theorem save_then_load m o step is_final dl fs fs' st :
  save_checkpoint m o step is_final dl fs = (fs', None) →
  older_elsewhere fs (checkpoint_name is_final step) step →
  item (mx_array step) = Some step →
  (∀ d, dl = Some d →
     item (mx_array (current_shard d)) = Some (current_shard d) ∧
     item (mx_array (current_position d)) = Some (current_position d)) →
  tree_unflatten (flat_state o) = o →
  (∀ d live, dl = Some d → data_loader st = Some live →
     ∃ f t, py_index (shards live) (current_shard d) = Ok f ∧ load_tokens f = Some t) →
  ∃ st',
    load_checkpoint fs' st = (st', Ok (step + 1, cursor_of <$> dl)) ∧
    model st' = m ∧ optimizer st' = o ∧
    (data_loader st = None → data_loader st' = None) ∧
    (∀ d live, dl = Some d → data_loader st = Some live →
       ∃ f t, py_index (shards live) (current_shard d) = Ok f ∧
         load_tokens f = Some t ∧
         data_loader st' =
           Some {| current_shard := current_shard d;
                   current_position := current_position d;
                   shards := shards live; tokens := t |}).
Proof.
  intros Hsave [Hnd Hold] Hstep Hcur Hopt Hlive.
  set (name := checkpoint_name is_final step) in *.
  destruct (save_checkpoint_others _ _ _ _ _ _ _ Hsave Hnd)
    as (a & files & b & -> & Hab & Hin).
  fold name in Hab |- *.
  assert (name ∉ a.*1) as Ha.
  { intros ?. apply Hab. rewrite fmap_app. apply elem_of_app. by left. }
  assert (∀ l, (∀ it, it ∈ l → it ∈ a ++ b) →
            ∃ cs, find_checkpoints l [] = Ok cs ∧ Forall (λ c, c.1 < step) cs)
    as Hfind.
  { intros l Hl. apply find_checkpoints_older. intros n x Hnx.
    apply (Hold n x); [by apply Hin, Hl|]. intros ->. apply Hab.
    apply list_elem_of_fmap. exists (name, x). split; [done|by apply Hl]. }
  destruct (Hfind a) as (ca & Ea & Hca).
  { intros it ?. apply elem_of_app. by left. }
  destruct (Hfind b) as (cb & Eb & Hcb).
  { intros it ?. apply elem_of_app. by right. }
  set (af := with_artifacts m o step dl files).
  assert (readable_metadata (NDir af) step) as Hr.
  { exists af, (metadata step dl). split; [done|].
    unfold af. rewrite with_artifacts_metadata. split; [done|].
    eapply int_item_get; [apply metadata_step|done]. }
  assert (find_checkpoints (a ++ (name, NDir af) :: b) [] =
            Ok (ca ++ (step, name) :: cb)) as E.
  { rewrite find_checkpoints_app, Ea, find_checkpoints_cons.
    by rewrite (visit_readable _ _ step), Eb. }
  destruct (sort_desc_head ca (step, name) cb) as [t Hs]; [done| |].
  { eapply Forall_impl; [exact Hcb|]. simpl. intros; lia. }
  rewrite (load_checkpoint_selected _ _ _ _ _ _ E Hs).
  rewrite (restore_run _ _ _ (metadata step dl));
    rewrite ?file_at_here by done; unfold af;
    rewrite ?with_artifacts_weights, ?with_artifacts_optimizer,
      ?with_artifacts_metadata;
    [|by right; eexists..|done].
  simpl. rewrite Hopt.
  destruct dl as [d|].
  - destruct (Hcur d eq_refl) as [Hsh Hpos].
    rewrite (restore_cursor_present _ (current_shard d) (current_position d));
      [|by split; eexists
       |eapply int_item_get; [apply metadata_cursor|done]
       |eapply int_item_get; [apply metadata_cursor|done]].
    destruct (data_loader st) as [live|] eqn:Hdl.
    + destruct (Hlive d live eq_refl eq_refl) as (f & t' & Hf & Ht).
      rewrite (restore_loader_live _ _ _ live f t') by done.
      eexists. split; [done|]. simpl. split; [done|]. split; [done|].
      split; [done|]. intros d' live' [= <-] [= <-]. by exists f, t'.
    + rewrite restore_loader_none by done.
      eexists. split; [done|]. simpl. split; [done|]. split; [done|].
      split; [done|]. intros d' live' _ [=].
  - rewrite restore_cursor_absent by apply metadata_no_cursor.
    eexists. split; [done|]. simpl. split; [done|]. split; [done|].
    split; [done|]. intros d' live' [=].
Qed.

End Facts.

(** * The claims on concrete file systems *)

Section Instances.
Import Demo.

(** The spec's example: steps 3, 7 and 5 resume at step 8, from [final]. *)
Example steps_3_7_5_resume_at_8 :
  load_checkpoint (RootDir steps_3_7_5) blank =
    ({| model := [7]; optimizer := adam; data_loader := None |}, Ok (8, None)).
Proof. vm_compute. reflexivity. Qed.

Example tied_resumes_from_first :
  load_checkpoint (RootDir tied) blank =
    ({| model := [1]; optimizer := sgd; data_loader := None |}, Ok (8, None)).
Proof. vm_compute. reflexivity. Qed.

Lemma full_readable w o step : readable_metadata (full w o step) step.
Proof. by eexists _, _. Qed.

Lemma steps_3_7_5_scannable : scannable steps_3_7_5.
Proof.
  repeat apply List.Forall_cons; try apply List.Forall_nil;
    right; eexists; apply full_readable.
Qed.

Lemma tied_scannable : scannable tied.
Proof.
  repeat apply List.Forall_cons; try apply List.Forall_nil;
    right; eexists; apply full_readable.
Qed.

Lemma latest_wins_witness :
  scannable steps_3_7_5 ∧
  Exists (λ it, ∃ step, readable_metadata it.2 step) steps_3_7_5 ∧
  ∃ step name x,
    (name, x) ∈ steps_3_7_5 ∧ readable_metadata x step ∧
    (∀ name' x' step',
       (name', x') ∈ steps_3_7_5 → readable_metadata x' step' → step' ≤ step) ∧
    load_checkpoint (RootDir steps_3_7_5) blank =
      restore (RootDir steps_3_7_5) step name blank ∧
    (restorable (RootDir steps_3_7_5) name (data_loader blank) →
     ∃ st' c, load_checkpoint (RootDir steps_3_7_5) blank = (st', Ok (step + 1, c))) ∧
    (∀ st' n c,
       load_checkpoint (RootDir steps_3_7_5) blank = (st', Ok (n, c)) → n = step + 1).
Proof.
  assert (Exists (λ it, ∃ step, readable_metadata it.2 step) steps_3_7_5) as Hex.
  { apply List.Exists_cons_hd. eexists. apply full_readable. }
  split; [apply steps_3_7_5_scannable|]. split; [exact Hex|].
  exact (latest_wins steps_3_7_5 blank steps_3_7_5_scannable Hex).
Defined.

Lemma tie_break_first_enumerated_witness :
  scannable tied ∧
  Exists (λ it, ∃ step, readable_metadata it.2 step) tied ∧
  ∃ step name x l1 l2 cps,
    tied = l1 ++ (name, x) :: l2 ∧ readable_metadata x step ∧
    (∀ n' x' s', (n', x') ∈ l1 → readable_metadata x' s' → s' < step) ∧
    (∀ n' x' s', (n', x') ∈ l2 → readable_metadata x' s' → s' ≤ step) ∧
    load_checkpoint (RootDir tied) blank = restore (RootDir tied) step name blank ∧
    find_checkpoints tied [] = Ok cps ∧ cps.*2 `sublist_of` tied.*1 ∧
    (∀ k, filter (λ c, c.1 = k) (sort_desc cps) = filter (λ c, c.1 = k) cps).
Proof.
  assert (Exists (λ it, ∃ step, readable_metadata it.2 step) tied) as Hex.
  { apply List.Exists_cons_hd. eexists. apply full_readable. }
  split; [apply tied_scannable|]. split; [exact Hex|].
  exact (tie_break_first_enumerated tied blank tied_scannable Hex).
Defined.

(** ** Discovery with missing and with unreadable metadata *)

Lemma empty_root_starts_from_scratch_witness :
  (RootDir [("notes.txt", NFile); ("scratch", NDir ∅)] = Missing ∨
   ∃ l, RootDir [("notes.txt", NFile); ("scratch", NDir ∅)] = RootDir l ∧
        Forall (λ it, no_metadata it.2) l) ∧
  load_checkpoint (RootDir [("notes.txt", NFile); ("scratch", NDir ∅)]) blank =
    (blank, Ok (0, None)).
Proof.
  assert (RootDir [("notes.txt", NFile); ("scratch", NDir ∅)] = Missing ∨
          ∃ l, RootDir [("notes.txt", NFile); ("scratch", NDir ∅)] = RootDir l ∧
               Forall (λ it, no_metadata it.2) l) as Hempty.
  { right. eexists. split; [reflexivity|].
    repeat apply List.Forall_cons; try apply List.Forall_nil; reflexivity. }
  split; [exact Hempty|].
  exact (empty_root_starts_from_scratch _ blank Hempty).
Defined.

(** The root holds one directory, its metadata cannot be read, and the load
    raises instead of returning [(0, None)]. *)
Lemma unreadable_only_root_raises :
  (∀ name x step,
     (name, x) ∈ [("checkpoint_step_4", torn)] → ¬ readable_metadata x step) ∧
  load_checkpoint (RootDir [("checkpoint_step_4", torn)]) blank =
    (blank, Raise RuntimeError) ∧
  load_checkpoint (RootDir [("checkpoint_step_4", torn)]) blank ≠
    (blank, Ok (0, None)).
Proof.
  split; [|split; [reflexivity|discriminate]].
  intros name x step [= -> ->]%list_elem_of_singleton (files & md & [= <-] & Hmd & _).
  discriminate Hmd.
Qed.

Lemma missing_metadata_skipped_unreadable_raises_witness :
  ("scratch" ∉ ([("checkpoint_step_3", full [3] sgd 3)] ++ []).*1) ∧
  (no_metadata (NDir ∅) →
   load_checkpoint
     (RootDir ([("checkpoint_step_3", full [3] sgd 3)] ++ ("scratch", NDir ∅) :: []))
     blank =
   load_checkpoint (RootDir ([("checkpoint_step_3", full [3] sgd 3)] ++ [])) blank) ∧
  (∀ e, scannable [("checkpoint_step_3", full [3] sgd 3)] →
   unreadable_metadata (NDir ∅) e →
   load_checkpoint
     (RootDir ([("checkpoint_step_3", full [3] sgd 3)] ++ ("scratch", NDir ∅) :: []))
     blank = (blank, Raise e)).
Proof.
  assert ("scratch" ∉ ([("checkpoint_step_3", full [3] sgd 3)] ++ []).*1) as Hfresh.
  { simpl. intros [=]%list_elem_of_singleton. }
  split; [exact Hfresh|].
  exact (missing_metadata_skipped_unreadable_raises
           [("checkpoint_step_3", full [3] sgd 3)] "scratch" (NDir ∅) [] blank Hfresh).
Defined.

(** Next to a good checkpoint, a directory with unreadable metadata makes the
    whole load raise; without that directory the load resumes at step 4. *)
Lemma unreadable_metadata_aborts_load :
  load_checkpoint (RootDir good_and_torn) blank = (blank, Raise RuntimeError) ∧
  load_checkpoint (RootDir [("checkpoint_step_3", full [3] sgd 3)]) blank =
    ({| model := [3]; optimizer := sgd; data_loader := None |}, Ok (4, None)).
Proof. split; vm_compute; reflexivity. Qed.

(** ** Restoring *)

Lemma no_optimizer_selected :
  selected [("checkpoint_step_4", no_optimizer [4; 4] 4)] 4 "checkpoint_step_4".
Proof. eexists _, _. split; vm_compute; reflexivity. Qed.

Lemma no_optimizer_restorable :
  restorable (RootDir [("checkpoint_step_4", no_optimizer [4; 4] 4)])
    "checkpoint_step_4" (data_loader blank).
Proof.
  split; [right; by eexists|]. split; [by left|].
  eexists. split; [vm_compute; reflexivity|].
  intros [[v Hv] _]. vm_compute in Hv. discriminate.
Qed.

Lemma partial_checkpoint_tolerance_witness :
  selected [("checkpoint_step_4", no_optimizer [4; 4] 4)] 4 "checkpoint_step_4" ∧
  restorable (RootDir [("checkpoint_step_4", no_optimizer [4; 4] 4)])
    "checkpoint_step_4" (data_loader blank) ∧
  ∃ st' c,
    load_checkpoint (RootDir [("checkpoint_step_4", no_optimizer [4; 4] 4)]) blank =
      (st', Ok (4 + 1, c)) ∧
    (file_at (RootDir [("checkpoint_step_4", no_optimizer [4; 4] 4)])
       "checkpoint_step_4" "optimizer_state.npz" = None →
     optimizer st' = optimizer blank) ∧
    (file_at (RootDir [("checkpoint_step_4", no_optimizer [4; 4] 4)])
       "checkpoint_step_4" "model_weights.safetensors" = None →
     model st' = model blank) ∧
    (∀ w, file_at (RootDir [("checkpoint_step_4", no_optimizer [4; 4] 4)])
            "checkpoint_step_4" "model_weights.safetensors" =
            Some (Regular (Safetensors w)) → model st' = w) ∧
    (∀ d, file_at (RootDir [("checkpoint_step_4", no_optimizer [4; 4] 4)])
            "checkpoint_step_4" "optimizer_state.npz" =
            Some (Regular (Npz d)) → optimizer st' = tree_unflatten d).
Proof.
  split; [exact no_optimizer_selected|]. split; [exact no_optimizer_restorable|].
  exact (partial_checkpoint_tolerance _ 4 "checkpoint_step_4" blank
           no_optimizer_selected no_optimizer_restorable).
Defined.

Example no_optimizer_resumes_at_5 :
  load_checkpoint (RootDir [("checkpoint_step_4", no_optimizer [4; 4] 4)]) blank =
    ({| model := [4; 4]; optimizer := []; data_loader := None |}, Ok (5, None)).
Proof. vm_compute. reflexivity. Qed.

Lemma cursor_only_selected :
  selected [("final", cursor_only 9 1 40)] 9 "final".
Proof. eexists _, _. split; vm_compute; reflexivity. Qed.

Lemma live_loader_restored_witness :
  selected [("final", cursor_only 9 1 40)] 9 "final" ∧
  weights_loadable
    (file_at (RootDir [("final", cursor_only 9 1 40)]) "final"
       "model_weights.safetensors") ∧
  npz_loadable
    (file_at (RootDir [("final", cursor_only 9 1 40)]) "final" "optimizer_state.npz") ∧
  mx_load (file_at (RootDir [("final", cursor_only 9 1 40)]) "final" "metadata.npz") =
    Ok [("step", DScalar 9); ("data_shard", DScalar 1); ("data_position", DScalar 40)] ∧
  ∃ st',
    load_checkpoint (RootDir [("final", cursor_only 9 1 40)]) blank_live =
      (st', Ok (9 + 1, Some {| shard := 1; position := 40 |})) ∧
    data_loader st' =
      Some {| current_shard := 1; current_position := 40;
              shards := shards fresh_loader; tokens := [21; 22] |}.
Proof.
  assert (weights_loadable
            (file_at (RootDir [("final", cursor_only 9 1 40)]) "final"
               "model_weights.safetensors")) as Hw by (by left).
  assert (npz_loadable
            (file_at (RootDir [("final", cursor_only 9 1 40)]) "final"
               "optimizer_state.npz")) as Ho by (by left).
  split; [exact cursor_only_selected|]. split; [exact Hw|]. split; [exact Ho|].
  split; [vm_compute; reflexivity|].
  refine (live_loader_restored _ 9 "final" _ 1 40 blank_live fresh_loader
            "shard1.bin" [21; 22] cursor_only_selected Hw Ho _ _ _ _ _ _);
    vm_compute; reflexivity.
Defined.

Lemma cursor_pairing_witness :
  (selected [("final", cursor_only 9 1 40)] 9 "final" ∧
   (is_Some (Some {| shard := 1; position := 40 |}) ↔
    has_cursor [("step", DScalar 9); ("data_shard", DScalar 1);
                ("data_position", DScalar 40)]) ∧
   ∀ st2 st2' n2 c2,
     load_checkpoint (RootDir [("final", cursor_only 9 1 40)]) st2 = (st2', Ok (n2, c2)) →
     c2 = Some {| shard := 1; position := 40 |}) ∧
  ∃ md,
    file_at (save_checkpoint [1] sgd 10 false (Some loader) Missing).1
      (checkpoint_name false 10) "metadata.npz" = Some (Regular (Npz md)) ∧
    is_Some (dict_get md "step") ∧
    (is_Some (dict_get md "data_shard") ↔ is_Some (Some loader)) ∧
    (is_Some (dict_get md "data_position") ↔ is_Some (Some loader)).
Proof.
  split.
  - split; [exact cursor_only_selected|].
    refine (proj1 cursor_pairing _ 9 "final" _ blank _ 10 _ cursor_only_selected _ _);
      vm_compute; reflexivity.
  - refine (proj2 cursor_pairing [1] sgd 10 false (Some loader) Missing _ _).
    vm_compute. reflexivity.
Defined.

(** ** Writing *)

Lemma rewrite_same_step_witness :
  save_checkpoint [1] sgd 10 false None Missing =
    ((save_checkpoint [1] sgd 10 false None Missing).1, None) ∧
  makedirs (checkpoint_name false 10) (save_checkpoint [1] sgd 10 false None Missing).1 =
    Ok (save_checkpoint [1] sgd 10 false None Missing).1 ∧
  ∃ fs2,
    save_checkpoint [2; 2] adam 10 false (Some loader)
      (save_checkpoint [1] sgd 10 false None Missing).1 = (fs2, None) ∧
    file_at fs2 (checkpoint_name false 10) "model_weights.safetensors" =
      Some (Regular (Safetensors [2; 2])) ∧
    file_at fs2 (checkpoint_name false 10) "optimizer_state.npz" =
      Some (Regular (Npz (flat_state adam))) ∧
    file_at fs2 (checkpoint_name false 10) "metadata.npz" =
      Some (Regular (Npz (metadata 10 (Some loader)))).
Proof.
  assert (save_checkpoint [1] sgd 10 false None Missing =
            ((save_checkpoint [1] sgd 10 false None Missing).1, None)) as Hsave
    by (vm_compute; reflexivity).
  split; [exact Hsave|].
  exact (rewrite_same_step [1] sgd None [2; 2] adam (Some loader) 10 false Missing _ Hsave).
Defined.



(** ** Saving, then loading *)

Lemma earlier_root_older : older_elsewhere earlier_root (checkpoint_name false 5) 5.
Proof.
  split.
  - simpl. apply NoDup_singleton.
  - intros n x [= -> ->]%list_elem_of_singleton _. right. exists 3.
    split; [apply full_readable|lia].
Qed.

Lemma save_then_load_witness :
  save_checkpoint [1; 2] adam 5 false (Some loader) earlier_root =
    ((save_checkpoint [1; 2] adam 5 false (Some loader) earlier_root).1, None) ∧
  older_elsewhere earlier_root (checkpoint_name false 5) 5 ∧
  ∃ st',
    load_checkpoint (save_checkpoint [1; 2] adam 5 false (Some loader) earlier_root).1
      blank_live = (st', Ok (5 + 1, cursor_of <$> Some loader)) ∧
    model st' = [1; 2] ∧ optimizer st' = adam ∧
    (data_loader blank_live = None → data_loader st' = None) ∧
    (∀ d live, Some loader = Some d → data_loader blank_live = Some live →
       ∃ f t, py_index (shards live) (current_shard d) = Ok f ∧
         load_tokens f = Some t ∧
         data_loader st' =
           Some {| current_shard := current_shard d;
                   current_position := current_position d;
                   shards := shards live; tokens := t |}).
Proof.
  assert (save_checkpoint [1; 2] adam 5 false (Some loader) earlier_root =
            ((save_checkpoint [1; 2] adam 5 false (Some loader) earlier_root).1, None))
    as Hsave by (vm_compute; reflexivity).
  split; [exact Hsave|]. split; [exact earlier_root_older|].
  refine (save_then_load [1; 2] adam 5 false (Some loader) earlier_root _ blank_live
            Hsave earlier_root_older _ _ _ _).
  - reflexivity.
  - intros d [= <-]. split; reflexivity.
  - reflexivity.
  - intros d live [= <-] [= <-]. exists "shard1.bin", [21; 22].
    split; vm_compute; reflexivity.
Defined.

(** Saving step 5 with a cursor into a root that holds the checkpoint of
    step 10: the save succeeds, and the load resumes at step 11 with the
    weights and the optimizer state of step 10 and without a cursor, not at
    step 6 with what was just saved. *)
Lemma later_checkpoint_wins_over_saved :
  (save_checkpoint [1; 2] sgd 5 false (Some loader) later_root).2 = None ∧
  load_checkpoint (save_checkpoint [1; 2] sgd 5 false (Some loader) later_root).1
    blank =
    ({| model := [9]; optimizer := adam; data_loader := None |}, Ok (11, None)) ∧
  11 ≠ 5 + 1 ∧ [9] ≠ [1; 2] ∧ adam ≠ sgd ∧ None ≠ Some (cursor_of loader).
Proof. repeat split; try (vm_compute; reflexivity); discriminate. Qed.

End Instances.

(** * Further facts about the writer and the loader *)

Section More.
Context `{Collaborators}.

Local Arguments mx_load : simpl never.
Local Arguments int_item : simpl never.
Local Arguments file_at : simpl never.
Local Arguments write_file : simpl never.
Local Arguments makedirs : simpl never.

(** ** The sort of line 60 *)

Lemma insert_desc_sorted x l :
  StronglySorted (λ a b : Z * string, b.1 ≤ a.1) l →
  StronglySorted (λ a b : Z * string, b.1 ≤ a.1) (insert_desc x l).
Proof.
  induction 1 as [|y l Hl IH Hy]; simpl.
  - repeat constructor.
  - case_decide as Hlt.
    + constructor; [done|]. apply insert_desc_Forall; [lia|done].
    + constructor; [by constructor|]. constructor; [lia|].
      eapply Forall_impl; [exact Hy|]. simpl. intros; lia.
Qed.

Lemma sort_desc_sorted l :
  StronglySorted (λ a b : Z * string, b.1 ≤ a.1) (sort_desc l).
Proof.
  induction l as [|x l IH]; simpl; [constructor|]. by apply insert_desc_sorted.
Qed.

(** X13.  The candidate list after [sort(key=..., reverse=True)] is a
    rearrangement of the list before, its steps never increase from one entry
    to a later one, and entries of one step are in the order they had. *)
Theorem sort_desc_spec l :
  sort_desc l ≡ₚ l ∧
  StronglySorted (λ a b : Z * string, b.1 ≤ a.1) (sort_desc l) ∧
  ∀ k, filter (λ c, c.1 = k) (sort_desc l) = filter (λ c, c.1 = k) l.
Proof.
  split; [apply sort_desc_perm|]. split; [apply sort_desc_sorted|].
  intros k. apply sort_desc_stable.
Qed.

(** The first entry after the sort records the largest step. *)
Lemma sort_desc_head_max l x t :
  sort_desc l = x :: t → ∀ y, y ∈ l → y.1 ≤ x.1.
Proof.
  intros Hs y Hy. pose proof (sort_desc_perm l) as Hp.
  pose proof (sort_desc_sorted l) as Hsorted.
  rewrite <- Hp, Hs in Hy. rewrite Hs in Hsorted.
  apply elem_of_cons in Hy as [->|Hy]; [lia|].
  apply StronglySorted_inv in Hsorted as [_ Hall].
  rewrite Forall_forall in Hall. by apply Hall.
Qed.

(** ** The dictionary of line 23 *)

Lemma dict_get_set d k v k' :
  dict_get (dict_set d k v) k' = if decide (k = k') then Some v else dict_get d k'.
Proof.
  induction d as [|[k0 v0] d IH]; simpl.
  - by repeat case_decide.
  - repeat (case_decide; simpl; simplify_eq); try done.
Qed.

Lemma dict_set_keys d k v :
  (dict_set d k v).*1 = if decide (k ∈ d.*1) then d.*1 else d.*1 ++ [k].
Proof.
  induction d as [|[k0 v0] d IH]; [done|].
  cbn [dict_set]. rewrite (fmap_cons fst (k0, v0) d). cbn [fst].
  destruct (decide (k0 = k)) as [->|Hne].
  - rewrite decide_True by left. by rewrite fmap_cons.
  - rewrite fmap_cons, IH. cbn [fst].
    destruct (decide (k ∈ d.*1)) as [Hin|Hout].
    + rewrite decide_True by (by right). done.
    + rewrite decide_False; [done|]. intros [->|?]%elem_of_cons; done.
Qed.

Lemma dict_set_NoDup d k v : NoDup d.*1 → NoDup (dict_set d k v).*1.
Proof.
  intros Hd. rewrite dict_set_keys. case_decide as E; [done|].
  apply NoDup_app. split; [done|]. split; [|apply NoDup_singleton].
  intros x Hx ->%list_elem_of_singleton. done.
Qed.

Lemma dict_set_fresh d k v : k ∉ d.*1 → dict_set d k v = d ++ [(k, v)].
Proof.
  induction d as [|[k0 v0] d IH]; simpl; [done|].
  rewrite not_elem_of_cons. intros [Hne Hout].
  rewrite decide_False by done. by rewrite IH.
Qed.

Lemma foldl_dict_set_NoDup (l : list (string * array)) d :
  NoDup d.*1 → NoDup (foldl (λ d kv, dict_set d kv.1 kv.2) d l).*1.
Proof.
  revert d. induction l as [|[k v] l IH]; intros d Hd; simpl; [done|].
  apply IH. by apply dict_set_NoDup.
Qed.

Lemma foldl_dict_set_get (l : list (string * array)) d k :
  dict_get (foldl (λ d kv, dict_set d kv.1 kv.2) d l) k =
    match dict_get (reverse l) k with
    | Some v => Some v
    | None => dict_get d k
    end.
Proof.
  revert d. induction l as [|[k0 v0] l IH]; intros d; simpl; [done|].
  rewrite IH, reverse_cons, dict_get_set.
  assert (∀ a b, dict_get (a ++ b) k =
            match dict_get a k with Some v => Some v | None => dict_get b k end)
    as Happ.
  { intros a b. induction a as [|[k1 v1] a IHa]; simpl; [done|].
    by case_decide. }
  rewrite Happ. destruct (dict_get (reverse l) k); [done|].
  simpl. by case_decide.
Qed.

Lemma foldl_dict_set_fresh (l : list (string * array)) d :
  NoDup (d ++ l).*1 → foldl (λ d kv, dict_set d kv.1 kv.2) d l = d ++ l.
Proof.
  revert d. induction l as [|[k v] l IH]; intros d Hnd; simpl.
  - by rewrite app_nil_r.
  - rewrite dict_set_fresh.
    + rewrite IH; rewrite <- app_assoc; done.
    + rewrite fmap_app in Hnd. apply NoDup_app in Hnd as (_ & Hdis & _).
      intros Hin. apply (Hdis k Hin). simpl. left.
Qed.

(** X14.  [dict(pairs)] has every key once, and holds for each key the value
    of the last pair with that key. *)
Theorem py_dict_spec (l : list (string * array)) :
  NoDup (py_dict l).*1 ∧
  ∀ k, dict_get (py_dict l) k = dict_get (reverse l) k.
Proof.
  split.
  - apply foldl_dict_set_NoDup. constructor.
  - intros k. unfold py_dict. rewrite foldl_dict_set_get.
    by destruct (dict_get (reverse l) k).
Qed.

(** X15.  When [tree_flatten] yields pairwise distinct keys, the dictionary
    written to [optimizer_state.npz] is the flattened list itself, pair by
    pair and in the same order. *)
Theorem flat_state_distinct_keys o :
  NoDup (tree_flatten o).*1 → flat_state o = tree_flatten o.
Proof. intros Hnd. apply (foldl_dict_set_fresh _ []). done. Qed.

(** ** More on the writer *)

Lemma writable_empty : writable ∅.
Proof. unfold writable. by rewrite !lookup_empty. Qed.

(** X1.  [save_checkpoint] returns without an exception only when the root
    is missing (it is then created), or is a directory in which the
    checkpoint name is free or names a directory none of whose three artifact
    names is taken by a directory.  So it raises on a root that is a plain
    file, on a checkpoint name taken by a plain file, and on an artifact name
    taken by a directory. *)
Theorem save_checkpoint_success_needs_room m o step is_final dl fs fs' :
  save_checkpoint m o step is_final dl fs = (fs', None) →
  accepts fs (checkpoint_name is_final step).
Proof.
  set (name := checkpoint_name is_final step). intros E.
  apply save_checkpoint_ok in E as (a & files & b & Ha & Hw & _ & Hfs).
  fold name in Ha, Hfs.
  destruct Hfs as [(-> & _)|[(-> & Hab & _)| ->]]; simpl.
  - done.
  - apply lookup_name_None in Hab. by rewrite Hab.
  - by rewrite lookup_name_here.
Qed.

Lemma makedirs_other_names name fs fs1 n :
  makedirs name fs = Ok fs1 → n ≠ name →
  lookup_name n (entries fs1) = lookup_name n (entries fs).
Proof.
  intros (a & files & b & Ha & -> & Hfs)%makedirs_ok Hn. simpl.
  destruct Hfs as [(-> & -> & -> & _)|[(-> & _)| ->]]; simpl; [|by apply lookup_name_skip|done].
  by case_decide.
Qed.

Lemma write_file_other_names name file c fs fs1 n :
  write_file name file c fs = Ok fs1 → n ≠ name →
  lookup_name n (entries fs1) = lookup_name n (entries fs).
Proof.
  unfold write_file. destruct fs as [| |l]; [done..|].
  destruct (lookup_name name l) as [[|files]|] eqn:E; [done| |done].
  apply lookup_name_split in E as (a & b & -> & Ha).
  rewrite update_name_here by done.
  destruct (files !! file) as [[]|]; [|done|]; intros [= <-] Hn; simpl;
    by rewrite !lookup_name_skip.
Qed.

(** Effects on one directory leave the entries under other names as they
    were, whether the run completes or stops at an exception. *)
Lemma run_other_names name ops fs n :
  Forall (λ o, match o with Makedirs nm | WriteFile nm _ _ => nm = name end) ops →
  n ≠ name →
  lookup_name n (entries (run ops fs).1) = lookup_name n (entries fs).
Proof.
  intros Hops Hn. revert fs.
  induction Hops as [|o ops Ho Hops IH]; intros fs; [done|].
  simpl. destruct (exec o fs) as [fs1|e] eqn:E; [|done].
  rewrite IH. destruct o as [nm|nm file c]; simpl in E; subst nm.
  - by eapply makedirs_other_names.
  - by eapply write_file_other_names.
Qed.

Lemma run_app a b fs :
  run (a ++ b) fs =
    match run a fs with
    | (fs1, None) => run b fs1
    | (fs1, Some e) => (fs1, Some e)
    end.
Proof.
  revert fs. induction a as [|o a IH]; intros fs; simpl; [done|].
  by destruct (exec o fs).
Qed.


(** A successful save leaves the entries under other names as they were. *)
Lemma save_checkpoint_other_names m o step is_final dl fs fs' n :
  save_checkpoint m o step is_final dl fs = (fs', None) →
  n ≠ checkpoint_name is_final step →
  lookup_name n (entries fs') = lookup_name n (entries fs).
Proof.
  intros (a & files & b & Ha & _ & -> & Hfs)%save_checkpoint_ok Hn.
  simpl. rewrite lookup_name_skip by done.
  destruct Hfs as [(-> & -> & -> & _)|[(-> & _)| ->]]; simpl; [done..|].
  by rewrite lookup_name_skip.
Qed.

(** X3.  A successful [save_checkpoint] changes nothing but the three
    artifacts of its own directory: every entry of the root under another
    name is what it was, and so is every other file of its directory. *)
Theorem save_checkpoint_frame m o step is_final dl fs fs' :
  save_checkpoint m o step is_final dl fs = (fs', None) →
  (∀ n, n ≠ checkpoint_name is_final step →
     lookup_name n (entries fs') = lookup_name n (entries fs)) ∧
  (∀ file, file ∉ artifact_names →
     file_at fs' (checkpoint_name is_final step) file =
     file_at fs (checkpoint_name is_final step) file).
Proof.
  intros Hsave. split.
  { intros n Hn. by eapply save_checkpoint_other_names. }
  apply save_checkpoint_ok in Hsave as (a & files & b & Ha & _ & -> & Hfs).
  intros file Hfile. rewrite file_at_here by done.
  assert (with_artifacts m o step dl files !! file = files !! file) as ->.
  { unfold with_artifacts, artifact_names in *.
    rewrite !lookup_insert_ne;
      [done|intros <-; apply Hfile; rewrite !elem_of_cons; auto..]. }
  destruct Hfs as [(-> & _ & _ & ->)|[(-> & Hab & ->)| ->]].
  - done.
  - unfold file_at. apply lookup_name_None in Hab. by rewrite Hab, lookup_empty.
  - by rewrite file_at_here.
Qed.

(** X4.  Two calls write to the same directory exactly when both are final,
    or neither is and the steps are equal: the decimal rendering of the step
    tells numbered checkpoints apart, and none of them is called [final]. *)
Theorem checkpoint_name_collides_iff f1 s1 f2 s2 :
  checkpoint_name f1 s1 = checkpoint_name f2 s2 ↔
  (f1 = true ∧ f2 = true) ∨ (f1 = false ∧ f2 = false ∧ s1 = s2).
Proof.
  split.
  - destruct f1, f2; simpl; [by left|done..|].
    intros [= E]. right. split; [done|]. split; [done|].
    by apply (inj pretty).
  - intros [[-> ->]|(-> & -> & ->)]; done.
Qed.

(** X5.  A successful numbered save leaves the checkpoint of every other
    step, and the final checkpoint, file by file as it was. *)
Theorem other_checkpoints_untouched m o step dl fs fs' :
  save_checkpoint m o step false dl fs = (fs', None) →
  (∀ step' file, step' ≠ step →
     file_at fs' (checkpoint_name false step') file =
     file_at fs (checkpoint_name false step') file) ∧
  (∀ step' file,
     file_at fs' (checkpoint_name true step') file =
     file_at fs (checkpoint_name true step') file).
Proof.
  intros Hsave.
  assert (∀ r n file, file_at r n file =
            match lookup_name n (entries r) with
            | Some (NDir files) => files !! file
            | _ => None
            end) as Hentries by (by intros [| |l] n file).
  assert (∀ n file, n ≠ checkpoint_name false step →
            file_at fs' n file = file_at fs n file) as Hfile.
  { intros n file Hn.
    by rewrite !Hentries, (save_checkpoint_other_names _ _ _ _ _ _ _ _ Hsave Hn). }
  split; intros step' file; [intros Hne|]; apply Hfile; simpl.
  - intros [= E]. simpl in E. apply Hne. by apply (inj (@pretty Z _)).
  - done.
Qed.

(** ** More on the loader *)

(** The three ways a load can go. *)
Lemma load_checkpoint_cases fs st :
  (load_checkpoint fs st = (st, Ok (0, None)) ∧
   find_checkpoints (entries fs) [] = Ok [] ∧ fs ≠ RootFile) ∨
  (∃ e, load_checkpoint fs st = (st, Raise e) ∧
     (fs = RootFile ∧ e = NotADirectoryError ∨
      find_checkpoints (entries fs) [] = Raise e)) ∨
  (∃ l cps rest step name,
     fs = RootDir l ∧ find_checkpoints l [] = Ok cps ∧
     sort_desc cps = (step, name) :: rest ∧
     load_checkpoint fs st = restore fs step name st).
Proof.
  destruct fs as [| |l].
  - by left.
  - right; left. exists NotADirectoryError. split; [done|by left].
  - simpl. destruct (find_checkpoints l []) as [cps|e] eqn:E.
    + destruct (sort_desc cps) as [|[step name] rest] eqn:Hs.
      * apply sort_desc_nil in Hs as ->. left.
        by rewrite (load_checkpoint_empty _ _ E).
      * right; right. exists l, cps, rest, step, name.
        by rewrite (load_checkpoint_selected _ _ _ _ _ _ E Hs).
    + right; left. exists e. rewrite (load_checkpoint_raise _ _ _ E). auto.
Qed.

Lemma find_checkpoints_nil l :
  find_checkpoints l [] = Ok [] → Forall (λ it, no_metadata it.2) l.
Proof.
  induction l as [|[n x] l IH]; [constructor|].
  rewrite find_checkpoints_cons.
  destruct (visit (n, x) []) as [c|] eqn:Hv; simpl; [|done].
  destruct (find_checkpoints l []) as [cs|]; simpl; [|done].
  intros [= [-> ->]%app_eq_nil]. constructor; [|by apply IH].
  by apply visit_inv in Hv as [[? _]|(? & _ & [=])].
Qed.

(** X7.  When no metadata below the root records a negative step, a returning
    [load_checkpoint] returns a step that is not negative; it is zero only
    when no entry of the root holds metadata, and then the objects are
    untouched and there is no cursor; otherwise it is one more than a step
    recorded below the root. *)
Theorem zero_means_scratch fs st st' n c :
  load_checkpoint fs st = (st', Ok (n, c)) →
  (∀ name x step, (name, x) ∈ entries fs → readable_metadata x step → 0 ≤ step) →
  0 ≤ n ∧
  (n = 0 → st' = st ∧ c = None ∧ Forall (λ it, no_metadata it.2) (entries fs)) ∧
  (0 < n → ∃ name x, (name, x) ∈ entries fs ∧ readable_metadata x (n - 1)).
Proof.
  intros Hgo Hpos.
  destruct (load_checkpoint_cases fs st)
    as [(E & Hnil & _)|[(e & E & _)|(l & cps & rest & s & nm & -> & Hf & Hs & E)]];
    rewrite E in Hgo.
  - injection Hgo as <- <- <-. split; [done|]. split; [|lia].
    intros _. split; [done|]. split; [done|]. by apply find_checkpoints_nil.
  - done.
  - apply restore_ok in Hgo as [-> _].
    destruct (find_checkpoints_elem l cps s nm Hf) as (x & Hin & Hr).
    { rewrite <- (sort_desc_perm cps), Hs. left. }
    pose proof (Hpos nm x s Hin Hr). split; [lia|]. split; [lia|].
    intros _. exists nm, x. split; [done|]. by replace (s + 1 - 1) with s by lia.
Qed.

(** X6.  After a successful save of a step, a returning [load_checkpoint] on
    the same root never resumes before the step that follows it, whatever
    else the root holds. *)
Theorem resume_not_before_saved m o step is_final dl fs fs' st st' n c :
  save_checkpoint m o step is_final dl fs = (fs', None) →
  item (mx_array step) = Some step →
  load_checkpoint fs' st = (st', Ok (n, c)) →
  step + 1 ≤ n.
Proof.
  intros (a & files & b & Ha & _ & -> & _)%save_checkpoint_ok Hstep Hgo.
  set (name := checkpoint_name is_final step) in *.
  set (af := with_artifacts m o step dl files) in *.
  assert (readable_metadata (NDir af) step) as Hr.
  { exists af, (metadata step dl). split; [done|].
    unfold af. rewrite with_artifacts_metadata. split; [done|].
    eapply int_item_get; [apply metadata_step|done]. }
  assert ((name, NDir af) ∈ a ++ (name, NDir af) :: b) as Hin.
  { apply elem_of_app. right. left. }
  destruct (load_checkpoint_cases (RootDir (a ++ (name, NDir af) :: b)) st)
    as [(_ & Hnil & _)|[(e & E & _)|(l & cps & rest & s & nm & [= <-] & Hf & Hs & E)]].
  - simpl in Hnil.
    pose proof (find_checkpoints_complete _ _ _ _ _ Hnil Hin Hr) as Hc.
    by apply elem_of_nil in Hc.
  - by rewrite E in Hgo.
  - rewrite E in Hgo. apply restore_ok in Hgo as [-> _].
    pose proof (find_checkpoints_complete _ _ _ _ _ Hf Hin Hr) as Hc.
    pose proof (sort_desc_head_max _ _ _ Hs _ Hc) as Hmax. simpl in Hmax. lia.
Qed.

(** X8.  Restoring is not all-or-nothing: when the weights of the selected
    directory load and its optimizer file is there but cannot be read, the
    load raises the reader's exception with the model already holding the
    loaded weights; optimizer and data loader are as they were. *)
Theorem corrupt_optimizer_keeps_loaded_weights l step name w e err st :
  selected l step name →
  file_at (RootDir l) name "model_weights.safetensors" =
    Some (Regular (Safetensors w)) →
  file_at (RootDir l) name "optimizer_state.npz" = Some e →
  mx_load (Some e) = Raise err →
  load_checkpoint (RootDir l) st =
    ({| model := w; optimizer := optimizer st; data_loader := data_loader st |},
     Raise err).
Proof.
  intros Hsel Hw Ho Herr. rewrite (load_checkpoint_restore _ _ _ _ Hsel).
  unfold restore. rewrite Hw, Ho.
  unfold mbind, M_bind, load_weights, lift. simpl. by rewrite Herr.
Qed.

Lemma py_index_out_of_range {A} (l : list A) i :
  i < - Z.of_nat (length l) ∨ Z.of_nat (length l) ≤ i →
  py_index l i = Raise IndexError.
Proof.
  intros Hi. unfold py_index. rewrite !decide_False by lia. done.
Qed.

Lemma py_index_negative {A} (l : list A) i :
  - Z.of_nat (length l) ≤ i < 0 →
  py_index l i = of_option IndexError (l !! Z.to_nat (Z.of_nat (length l) + i)).
Proof.
  intros Hi. unfold py_index.
  rewrite decide_False by lia. by rewrite decide_True by lia.
Qed.

(** X9.  With a live loader and a recorded shard index outside the loader's
    shard list (counting Python's negative indices), the load raises
    [IndexError] after it has set the loader's shard index and position: the
    loader is left with the new cursor and its old token buffer.  Model and
    optimizer have been restored by then. *)
Theorem bad_shard_index_half_sets_loader l step name md sh pos dl st :
  selected l step name →
  weights_loadable (file_at (RootDir l) name "model_weights.safetensors") →
  npz_loadable (file_at (RootDir l) name "optimizer_state.npz") →
  mx_load (file_at (RootDir l) name "metadata.npz") = Ok md →
  int_item md "data_shard" = Ok sh → int_item md "data_position" = Ok pos →
  data_loader st = Some dl →
  sh < - Z.of_nat (length (shards dl)) ∨ Z.of_nat (length (shards dl)) ≤ sh →
  load_checkpoint (RootDir l) st =
    ({| model :=
          restored_model (file_at (RootDir l) name "model_weights.safetensors")
            (model st);
        optimizer :=
          restored_optimizer (file_at (RootDir l) name "optimizer_state.npz")
            (optimizer st);
        data_loader :=
          Some {| current_shard := sh; current_position := pos;
                  shards := shards dl; tokens := tokens dl |} |},
     Raise IndexError).
Proof.
  intros Hsel Hw Ho Hmd Hsh Hpos Hdl Hout.
  rewrite (load_checkpoint_restore _ _ _ _ Hsel), (restore_run _ _ _ md) by done.
  rewrite (restore_cursor_present _ sh pos);
    [|by split; eapply int_item_is_Some|done..].
  unfold restore_loader. simpl. rewrite Hdl.
  unfold mbind, M_bind, update_loader, lift. simpl.
  by rewrite py_index_out_of_range.
Qed.

(** X10.  A recorded shard index that is negative but not below minus the
    number of shards is taken from the end of the shard list, as Python
    indexes: the loader keeps the negative index as its current shard and
    gets the tokens of the shard counted from the end. *)
Theorem negative_shard_index_wraps l step name md sh pos dl f t st :
  selected l step name →
  weights_loadable (file_at (RootDir l) name "model_weights.safetensors") →
  npz_loadable (file_at (RootDir l) name "optimizer_state.npz") →
  mx_load (file_at (RootDir l) name "metadata.npz") = Ok md →
  int_item md "data_shard" = Ok sh → int_item md "data_position" = Ok pos →
  data_loader st = Some dl →
  - Z.of_nat (length (shards dl)) ≤ sh < 0 →
  shards dl !! Z.to_nat (Z.of_nat (length (shards dl)) + sh) = Some f →
  load_tokens f = Some t →
  ∃ st',
    load_checkpoint (RootDir l) st =
      (st', Ok (step + 1, Some {| shard := sh; position := pos |})) ∧
    data_loader st' =
      Some {| current_shard := sh; current_position := pos;
              shards := shards dl; tokens := t |}.
Proof.
  intros Hsel Hw Ho Hmd Hsh Hpos Hdl Hneg Hf Ht.
  rewrite (load_checkpoint_restore _ _ _ _ Hsel), (restore_run _ _ _ md) by done.
  rewrite (restore_cursor_present _ sh pos);
    [|by split; eapply int_item_is_Some|done..].
  rewrite (restore_loader_live _ _ _ dl f t); [by eexists|done| |done].
  by rewrite py_index_negative, Hf.
Qed.

(** ** What the loader leaves alone *)

(** A quantity that every step of a computation keeps is kept by the whole. *)
Lemma M_bind_frame {A B X} (f : objects → X) (c : M A) (k : A → M B) st :
  (∀ s, f (c s).1 = f s) → (∀ a s, f (k a s).1 = f s) →
  f ((c ≫= k) st).1 = f st.
Proof.
  intros Hc Hk. unfold mbind, M_bind. specialize (Hc st).
  destruct (c st) as [s1 [a|e]]; simpl in *; [|done].
  by rewrite Hk.
Qed.

Lemma update_loader_shards g s :
  (∀ d, shards (g d) = shards d) →
  shards <$> data_loader (update_loader g s).1 = shards <$> data_loader s.
Proof.
  intros Hg. unfold update_loader. simpl.
  destruct (data_loader s); simpl; [by rewrite Hg|done].
Qed.

Lemma restore_loader_shards sh pos s :
  shards <$> data_loader (restore_loader sh pos s).1 = shards <$> data_loader s.
Proof.
  unfold restore_loader. generalize (data_loader s) at 1. intros [dl|]; [|done].
  repeat (apply (M_bind_frame (λ o, shards <$> data_loader o)); [|intros ? ?]);
    try intros ?; try (by apply update_loader_shards); done.
Qed.

Lemma restore_cursor_shards md s :
  shards <$> data_loader (restore_cursor md s).1 = shards <$> data_loader s.
Proof.
  unfold restore_cursor.
  destruct (dict_mem md "data_shard" && dict_mem md "data_position"); [|done].
  repeat (apply (M_bind_frame (λ o, shards <$> data_loader o)); [|intros ? ?]);
    try intros ?; try (by apply restore_loader_shards); done.
Qed.

Lemma restore_shards fs step name s :
  shards <$> data_loader (restore fs step name s).1 = shards <$> data_loader s.
Proof.
  unfold restore.
  repeat (apply (M_bind_frame (λ o, shards <$> data_loader o)); [|intros ? ?]);
    try (by apply restore_cursor_shards); try done.
  - intros s'. destruct (bool_decide _); [|done]. unfold load_weights.
    by destruct (file_at fs name "model_weights.safetensors") as [[[]|]|].
  - intros s'. destruct (bool_decide _); [|done].
    apply (M_bind_frame (λ o, shards <$> data_loader o)); [done|]. by intros.
Qed.

(** X11.  [load_checkpoint] never touches the shard list of the data loader
    it is given, and never creates or drops the loader, whether it returns
    or raises. *)
Theorem load_keeps_shard_list fs st :
  shards <$> data_loader (load_checkpoint fs st).1 = shards <$> data_loader st.
Proof.
  destruct (load_checkpoint_cases fs st)
    as [(E & _)|[(e & E & _)|(l & cps & rest & s & nm & _ & _ & _ & E)]];
    rewrite E; [done..|].
  apply restore_shards.
Qed.

(** Restoring twice from the same directory is restoring once. *)
Lemma restore_twice fs step name st :
  restore fs step name (restore fs step name st).1 = restore fs step name st.
Proof.
  unfold restore, restore_cursor, restore_loader.
  unfold mbind, M_bind, load_weights, set_optimizer_state, update_loader,
    lift, mret, M_ret.
  destruct (file_at fs name "model_weights.safetensors") as [[[w|d|]|]|];
    simpl; try done;
    (destruct (file_at fs name "optimizer_state.npz") as [eo|]; simpl;
     [destruct (mx_load (Some eo)) as [d'|]; simpl; [|done]|]);
    (destruct (mx_load (file_at fs name "metadata.npz")) as [md|]; simpl; [|done]);
    (destruct (dict_mem md "data_shard" && dict_mem md "data_position");
     simpl; [|done]);
    (destruct (int_item md "data_shard") as [sh|]; simpl; [|done]);
    (destruct (int_item md "data_position") as [pos|]; simpl; [|done]);
    (destruct (data_loader st) as [dl|] eqn:Hdl; simpl; rewrite ?Hdl; simpl;
     [|by rewrite ?Hdl]);
    (destruct (py_index (shards dl) sh) as [f|] eqn:Hf; simpl; rewrite ?Hf;
     simpl; [|done]);
    (destruct (load_tokens f) as [t|] eqn:Ht; simpl; rewrite ?Hf, ?Ht; done).
Qed.

(** X12.  Loading a second time from the same root, into the objects the
    first load left, changes nothing more and gives the same result or
    raises the same exception. *)
Theorem load_checkpoint_twice fs st :
  load_checkpoint fs (load_checkpoint fs st).1 = load_checkpoint fs st.
Proof.
  destruct (load_checkpoint_cases fs st)
    as [(E & _)|[(e & E & _)|(l & cps & rest & s & nm & -> & Hf & Hs & E)]].
  - by rewrite E; simpl; rewrite E.
  - by rewrite E; simpl; rewrite E.
  - rewrite E, (load_checkpoint_selected _ _ _ _ _ _ Hf Hs). apply restore_twice.
Qed.

(** ** Which exceptions *)

Lemma find_checkpoints_KeyError l k :
  find_checkpoints l [] = Raise (KeyError k) → k = "step".
Proof.
  induction l as [|[n x] l IH]; [done|].
  rewrite find_checkpoints_cons.
  destruct (visit (n, x) []) as [c|e] eqn:Hv; simpl.
  - destruct (find_checkpoints l []) as [cs|e]; simpl; [done|].
    intros [= ->]. by apply IH.
  - intros [= ->]. destruct x as [|files]; simpl in Hv; [done|].
    destruct (files !! "metadata.npz") as [[[]|]|]; try done.
    unfold mx_load in Hv. simpl in Hv. unfold int_item in Hv.
    destruct (dict_get d "step") as [a|]; simpl in Hv; [|by injection Hv].
    destruct (item a); done.
Qed.

Lemma restore_no_KeyError fs step name st st' k :
  restore fs step name st ≠ (st', Raise (KeyError k)).
Proof.
  unfold restore, restore_cursor, restore_loader, dict_mem, int_item.
  unfold mbind, M_bind, load_weights, set_optimizer_state, update_loader,
    lift, mret, M_ret, result_bind, mx_load.
  destruct (file_at fs name "model_weights.safetensors") as [[[w|d|]|]|];
    simpl; try done;
    (destruct (file_at fs name "optimizer_state.npz") as [[[w'|d'|]|]|];
     simpl; try done);
    (destruct (file_at fs name "metadata.npz") as [[[w''|md|]|]|];
     simpl; try done);
    (destruct (dict_get md "data_shard") as [a|]; simpl; [|done]);
    (destruct (dict_get md "data_position") as [b|]; simpl; [|done]);
    (destruct (item a) as [sh|]; simpl; [|done]);
    (destruct (item b) as [pos|]; simpl; [|done]);
    (destruct (data_loader st) as [dl|] eqn:Hdl; simpl; rewrite ?Hdl; simpl;
     [|done]);
    (destruct (py_index (shards dl) sh) as [f|e] eqn:Hf; simpl;
     [destruct (load_tokens f); simpl; done|]);
    intros [= _ ->]; unfold py_index in Hf;
    repeat case_decide; try done;
    by destruct (shards dl !! _).
Qed.

(** X16.  The only [KeyError] that [load_checkpoint] can raise is for the
    key [step] of some metadata file, and it is raised during discovery,
    before any object has been touched: the two cursor keys are looked up
    only after they were found to be there. *)
Theorem load_checkpoint_KeyError fs st st' k :
  load_checkpoint fs st = (st', Raise (KeyError k)) →
  k = "step" ∧ st' = st.
Proof.
  intros Hgo.
  destruct (load_checkpoint_cases fs st)
    as [(E & _)|[(e & E & He)|(l & cps & rest & s & nm & _ & _ & _ & E)]];
    rewrite E in Hgo.
  - done.
  - injection Hgo as <- ->. split; [|done].
    destruct He as [[_ [=]]|He]. by eapply find_checkpoints_KeyError.
  - by apply restore_no_KeyError in Hgo.
Qed.

End More.

(** * The further facts on concrete file systems *)

Section MoreInstances.
Import Demo.


Lemma save_into_earlier_root :
  save_checkpoint [1; 2] adam 5 false None earlier_root =
    ((save_checkpoint [1; 2] adam 5 false None earlier_root).1, None).
Proof. vm_compute. reflexivity. Qed.

Lemma save_checkpoint_success_needs_room_witness :
  save_checkpoint [1; 2] adam 5 false None earlier_root =
    ((save_checkpoint [1; 2] adam 5 false None earlier_root).1, None) ∧
  accepts earlier_root (checkpoint_name false 5).
Proof.
  split; [exact save_into_earlier_root|].
  exact (save_checkpoint_success_needs_room [1; 2] adam 5 false None earlier_root _
           save_into_earlier_root).
Defined.

Lemma save_checkpoint_frame_witness :
  save_checkpoint [1; 2] adam 5 false None earlier_root =
    ((save_checkpoint [1; 2] adam 5 false None earlier_root).1, None) ∧
  (∀ n, n ≠ checkpoint_name false 5 →
     lookup_name n (entries (save_checkpoint [1; 2] adam 5 false None earlier_root).1) =
     lookup_name n (entries earlier_root)) ∧
  (∀ file, file ∉ artifact_names →
     file_at (save_checkpoint [1; 2] adam 5 false None earlier_root).1
       (checkpoint_name false 5) file =
     file_at earlier_root (checkpoint_name false 5) file).
Proof.
  split; [exact save_into_earlier_root|].
  exact (save_checkpoint_frame [1; 2] adam 5 false None earlier_root _
           save_into_earlier_root).
Defined.

Lemma other_checkpoints_untouched_witness :
  save_checkpoint [1; 2] adam 5 false None earlier_root =
    ((save_checkpoint [1; 2] adam 5 false None earlier_root).1, None) ∧
  (∀ step' file, step' ≠ 5 →
     file_at (save_checkpoint [1; 2] adam 5 false None earlier_root).1
       (checkpoint_name false step') file =
     file_at earlier_root (checkpoint_name false step') file) ∧
  (∀ step' file,
     file_at (save_checkpoint [1; 2] adam 5 false None earlier_root).1
       (checkpoint_name true step') file =
     file_at earlier_root (checkpoint_name true step') file).
Proof.
  split; [exact save_into_earlier_root|].
  exact (other_checkpoints_untouched [1; 2] adam 5 None earlier_root _
           save_into_earlier_root).
Defined.

Lemma resume_not_before_saved_witness :
  save_checkpoint [1; 2] sgd 5 false None later_root =
    ((save_checkpoint [1; 2] sgd 5 false None later_root).1, None) ∧
  item (mx_array 5) = Some 5 ∧
  load_checkpoint (save_checkpoint [1; 2] sgd 5 false None later_root).1 blank =
    ({| model := [9]; optimizer := adam; data_loader := None |}, Ok (11, None)) ∧
  5 + 1 ≤ 11.
Proof.
  assert (save_checkpoint [1; 2] sgd 5 false None later_root =
            ((save_checkpoint [1; 2] sgd 5 false None later_root).1, None)) as Hsave
    by (vm_compute; reflexivity).
  assert (load_checkpoint (save_checkpoint [1; 2] sgd 5 false None later_root).1 blank =
            ({| model := [9]; optimizer := adam; data_loader := None |},
             Ok (11, None))) as Hload by (vm_compute; reflexivity).
  split; [exact Hsave|]. split; [reflexivity|]. split; [exact Hload|].
  exact (resume_not_before_saved [1; 2] sgd 5 false None later_root _ blank _ 11 None
           Hsave eq_refl Hload).
Defined.

Lemma full_recorded w o s step : readable_metadata (full w o s) step → step = s.
Proof.
  intros (files & md & [= <-] & Hmd & Hstep).
  rewrite lookup_insert_eq in Hmd. injection Hmd as <-.
  vm_compute in Hstep. by injection Hstep.
Qed.

Lemma steps_3_7_5_not_negative :
  ∀ name x step,
    (name, x) ∈ entries (RootDir steps_3_7_5) → readable_metadata x step → 0 ≤ step.
Proof.
  intros name x step Hin Hr. simpl in Hin. unfold steps_3_7_5 in Hin.
  repeat (apply elem_of_cons in Hin as [[= -> ->]|Hin];
          [apply full_recorded in Hr; lia|]).
  by apply elem_of_nil in Hin.
Qed.

Lemma zero_means_scratch_witness :
  load_checkpoint (RootDir steps_3_7_5) blank =
    ({| model := [7]; optimizer := adam; data_loader := None |}, Ok (8, None)) ∧
  (∀ name x step,
     (name, x) ∈ entries (RootDir steps_3_7_5) → readable_metadata x step → 0 ≤ step) ∧
  0 ≤ 8 ∧
  (8 = 0 →
   {| model := [7]; optimizer := adam; data_loader := None |} = blank ∧
   @None cursor = None ∧
   Forall (λ it, no_metadata it.2) (entries (RootDir steps_3_7_5))) ∧
  (0 < 8 →
   ∃ name x, (name, x) ∈ entries (RootDir steps_3_7_5) ∧ readable_metadata x (8 - 1)).
Proof.
  split; [exact steps_3_7_5_resume_at_8|]. split; [exact steps_3_7_5_not_negative|].
  exact (zero_means_scratch (RootDir steps_3_7_5) blank _ 8 None
           steps_3_7_5_resume_at_8 steps_3_7_5_not_negative).
Defined.

Lemma bad_optimizer_selected :
  selected [("checkpoint_step_4", bad_optimizer [4] 4)] 4 "checkpoint_step_4".
Proof. eexists _, _. split; vm_compute; reflexivity. Qed.

Lemma corrupt_optimizer_keeps_loaded_weights_witness :
  selected [("checkpoint_step_4", bad_optimizer [4] 4)] 4 "checkpoint_step_4" ∧
  file_at (RootDir [("checkpoint_step_4", bad_optimizer [4] 4)]) "checkpoint_step_4"
    "model_weights.safetensors" = Some (Regular (Safetensors [4])) ∧
  file_at (RootDir [("checkpoint_step_4", bad_optimizer [4] 4)]) "checkpoint_step_4"
    "optimizer_state.npz" = Some (Regular Garbage) ∧
  mx_load (Some (Regular Garbage)) = Raise RuntimeError ∧
  load_checkpoint (RootDir [("checkpoint_step_4", bad_optimizer [4] 4)]) blank =
    ({| model := [4]; optimizer := optimizer blank; data_loader := data_loader blank |},
     Raise RuntimeError).
Proof.
  split; [exact bad_optimizer_selected|]. split; [vm_compute; reflexivity|].
  split; [vm_compute; reflexivity|]. split; [reflexivity|].
  refine (corrupt_optimizer_keeps_loaded_weights _ 4 "checkpoint_step_4" [4]
            (Regular Garbage) RuntimeError blank bad_optimizer_selected _ _ _);
    vm_compute; reflexivity.
Defined.

Lemma cursor_selected sh :
  selected [("final", cursor_only 9 sh 40)] 9 "final".
Proof. eexists _, _. split; vm_compute; reflexivity. Qed.

Lemma bad_shard_index_half_sets_loader_witness :
  selected [("final", cursor_only 9 5 40)] 9 "final" ∧
  data_loader blank_live = Some fresh_loader ∧
  (5 < - Z.of_nat (length (shards fresh_loader)) ∨
   Z.of_nat (length (shards fresh_loader)) ≤ 5) ∧
  load_checkpoint (RootDir [("final", cursor_only 9 5 40)]) blank_live =
    ({| model := []; optimizer := [];
        data_loader :=
          Some {| current_shard := 5; current_position := 40;
                  shards := shards fresh_loader; tokens := tokens fresh_loader |} |},
     Raise IndexError).
Proof.
  assert (5 < - Z.of_nat (length (shards fresh_loader)) ∨
          Z.of_nat (length (shards fresh_loader)) ≤ 5) as Hout by (right; simpl; lia).
  split; [exact (cursor_selected 5)|]. split; [reflexivity|]. split; [exact Hout|].
  refine (bad_shard_index_half_sets_loader _ 9 "final"
            [("step", DScalar 9); ("data_shard", DScalar 5);
             ("data_position", DScalar 40)]
            5 40 fresh_loader blank_live (cursor_selected 5) _ _ _ _ _ _ Hout);
    try (by left); vm_compute; reflexivity.
Defined.

Lemma negative_shard_index_wraps_witness :
  selected [("final", cursor_only 9 (-1) 40)] 9 "final" ∧
  data_loader blank_live = Some fresh_loader ∧
  - Z.of_nat (length (shards fresh_loader)) ≤ -1 < 0 ∧
  shards fresh_loader !! Z.to_nat (Z.of_nat (length (shards fresh_loader)) + -1) =
    Some "shard1.bin" ∧
  load_tokens "shard1.bin" = Some [21; 22] ∧
  ∃ st',
    load_checkpoint (RootDir [("final", cursor_only 9 (-1) 40)]) blank_live =
      (st', Ok (9 + 1, Some {| shard := -1; position := 40 |})) ∧
    data_loader st' =
      Some {| current_shard := -1; current_position := 40;
              shards := shards fresh_loader; tokens := [21; 22] |}.
Proof.
  assert (- Z.of_nat (length (shards fresh_loader)) ≤ -1 < 0) as Hneg by (simpl; lia).
  split; [exact (cursor_selected (-1))|]. split; [reflexivity|].
  split; [exact Hneg|]. split; [reflexivity|]. split; [reflexivity|].
  refine (negative_shard_index_wraps _ 9 "final"
            [("step", DScalar 9); ("data_shard", DScalar (-1));
             ("data_position", DScalar 40)]
            (-1) 40 fresh_loader "shard1.bin" [21; 22] blank_live
            (cursor_selected (-1)) _ _ _ _ _ _ Hneg _ _);
    try (by left); vm_compute; reflexivity.
Defined.

Lemma flat_state_distinct_keys_witness :
  NoDup (tree_flatten adam).*1 ∧ flat_state adam = tree_flatten adam.
Proof.
  assert (NoDup (tree_flatten adam).*1) as Hnd.
  { simpl. apply NoDup_cons. split; [|apply NoDup_singleton].
    intros [=]%list_elem_of_singleton. }
  split; [exact Hnd|]. exact (flat_state_distinct_keys adam Hnd).
Defined.

Lemma load_checkpoint_KeyError_witness :
  load_checkpoint (RootDir [("checkpoint_step_1", stepless)]) blank_live =
    (blank_live, Raise (KeyError "step")) ∧
  "step" = "step" ∧ blank_live = blank_live.
Proof.
  assert (load_checkpoint (RootDir [("checkpoint_step_1", stepless)]) blank_live =
            (blank_live, Raise (KeyError "step"))) as Hload
    by (vm_compute; reflexivity).
  split; [exact Hload|].
  exact (load_checkpoint_KeyError _ blank_live blank_live "step" Hload).
Defined.

End MoreInstances.
